(** * snmp_exporter: the OID translation engine of [main.go]

    A shallow embedding of the Go program: OID utilities, the metric trie,
    the index decoder, the lookup resolver, PDU stringification and the
    scrape orchestrator, followed by the properties established for them.

    Conventions.
    - A Go [int] is a [Z]; no arithmetic of the program leaves the 64-bit
      range (values are only copied, compared and printed).
    - A Go [string] is a byte sequence: Rocq's [string] of [ascii] bytes.
    - A Go [map] is a [gmap]; a slice is a [list], written by index with
      an explicit bounds check.
    - A run-time panic is the [Panic] outcome of the [panics] monad.
      Memory exhaustion of [make] on a huge length is not modelled. *)

From Stdlib Require Import ZArith String Ascii List Decimal DecimalString.
From Stdlib Require DecimalPos.
From stdpp Require Import base option list gmap strings fin_maps.

Local Open Scope string_scope.
Local Open Scope list_scope.
Local Open Scope Z_scope.

(** ** Run-time panics *)

Module Runtime.

Inductive reason :=
  | IndexOutOfRange
  | SliceBoundsOutOfRange
  | MakeSliceLenOutOfRange.

Inductive panics (A : Type) :=
  | Ok (a : A)
  | Panic (r : reason).
Arguments Ok {A} a.
Arguments Panic {A} r.

#[export] Instance panics_bind : MBind panics := λ A B k m,
  match m with
  | Ok a => k a
  | Panic r => Panic r
  end.
#[export] Instance panics_ret : MRet panics := λ A a, Ok a.

(** [make([]T, n)]: a slice of [n] zero values; a negative length panics. *)
Definition make {A} (zero : A) (n : Z) : panics (list A) :=
  if n <? 0 then Panic MakeSliceLenOutOfRange
  else Ok (replicate (Z.to_nat n) zero).

(** [s[i]] *)
Definition index {A} (s : list A) (i : nat) : panics A :=
  match s !! i with
  | Some a => Ok a
  | None => Panic IndexOutOfRange
  end.

(** [s[i] = v] *)
Definition store {A} (s : list A) (i : nat) (v : A) : panics (list A) :=
  if decide (i < length s)%nat then Ok (<[i := v]> s)
  else Panic IndexOutOfRange.

(** [for i, o := range src { dst[i] = f(o) }], [i] starting at [from]. *)
Fixpoint store_each {A B} (f : A → B) (src : list A) (from : nat)
    (dst : list B) : panics (list B) :=
  match src with
  | [] => Ok dst
  | o :: src' =>
      dst' ← store dst from (f o); store_each f src' (S from) dst'
  end.

(** [for _, x := range xs { st = body(st, x) }], stopping at a panic. *)
Fixpoint for_each {A S} (body : S → A → panics S) (st : S) (xs : list A)
    : panics S :=
  match xs with
  | [] => Ok st
  | x :: xs' => st' ← body st x; for_each body st' xs'
  end.

End Runtime.
Import Runtime.

(** ** The parts of Go's standard library the program calls *)

Module Go.

Definition byte_of (v : Z) : ascii := ascii_of_N (Z.to_N (v mod 256)).

(** [fmt.Sprintf("%d", v)] *)
Definition fmt_d (v : Z) : string := NilZero.string_of_int (Z.to_int v).

Definition hex_digit (d : Z) : ascii :=
  if d <? 10 then byte_of (48 + d) else byte_of (55 + d).

(** Upper-case hexadecimal digits of a positive number, most significant
    first, in front of [acc]. *)
Fixpoint hex_pos (fuel : nat) (v : Z) (acc : string) : string :=
  match fuel with
  | O => acc
  | S fuel' =>
      let acc' := String (hex_digit (v mod 16)) acc in
      if v / 16 =? 0 then acc' else hex_pos fuel' (v / 16) acc'
  end.

Definition hex_upper (v : Z) : string := hex_pos (Z.to_nat (Z.log2_up (v + 2))) v "".

(** [fmt.Sprintf("%02X", v)]: the zero flag pads the digits to the width,
    and a sign takes one column of it. *)
Definition fmt_02X (v : Z) : string :=
  if v <? 0 then "-" +:+ hex_upper (- v)
  else let h := hex_upper v in
       if (String.length h <? 2)%nat then "0" +:+ h else h.

(** [string(v)] for an integer [v]: the UTF-8 encoding of the code point
    [v], and of U+FFFD when [v] is not a valid code point. *)
Definition utf8 (v : Z) : string :=
  if v <? 128 then String (byte_of v) ""
  else if v <? 2048 then
    String (byte_of (192 + v / 64)) (String (byte_of (128 + v mod 64)) "")
  else if v <? 65536 then
    String (byte_of (224 + v / 4096))
      (String (byte_of (128 + (v / 64) mod 64))
         (String (byte_of (128 + v mod 64)) ""))
  else
    String (byte_of (240 + v / 262144))
      (String (byte_of (128 + (v / 4096) mod 64))
         (String (byte_of (128 + (v / 64) mod 64))
            (String (byte_of (128 + v mod 64)) ""))).

Definition string_of_int (v : Z) : string :=
  if (v <? 0) || (1114111 <? v) || ((55296 <=? v) && (v <=? 57343))
  then utf8 65533
  else utf8 v.

(** [string(bs)] for a byte slice. *)
Definition string_of_bytes (bs : list ascii) : string := string_of_list_ascii bs.

(** [strings.Join(parts, sep)] *)
Definition Join (parts : list string) (sep : string) : string :=
  String.concat sep parts.

(** [strings.Split(s, ".")]: always at least one piece. *)
Fixpoint Split_dot (s : string) : list string :=
  match s with
  | EmptyString => [""]
  | String c s' =>
      if Ascii.eqb c "." then "" :: Split_dot s'
      else match Split_dot s' with
           | piece :: pieces => String c piece :: pieces
           | [] => [String c ""]
           end
  end.

Definition is_digit (c : ascii) : bool :=
  let n := Z.of_N (N_of_ascii c) in (48 <=? n) && (n <=? 57).

Fixpoint digits_value (s : string) (acc : Z) : Z :=
  match s with
  | EmptyString => acc
  | String c s' => digits_value s' (acc * 10 + (Z.of_N (N_of_ascii c) - 48))
  end.

Fixpoint all_digits (s : string) : bool :=
  match s with
  | EmptyString => true
  | String c s' => is_digit c && all_digits s'
  end.

Definition clamp64 (v : Z) : Z :=
  Z.max (- 2 ^ 63) (Z.min (2 ^ 63 - 1) v).

Inductive NumError := ErrSyntax | ErrRange.

Definition in_range64 (v : Z) : Z * option NumError :=
  (clamp64 v, if decide (clamp64 v = v) then None else Some ErrRange).

(** [strconv.Atoi(x)]: an optional sign and decimal digits; a syntax error
    gives 0 and a value out of range the nearest [int]. *)
Definition Atoi (x : string) : Z * option NumError :=
  match x with
  | String "-" ((String _ _) as ds) =>
      if all_digits ds then in_range64 (- digits_value ds 0)
      else (0, Some ErrSyntax)
  | String "+" ((String _ _) as ds) =>
      if all_digits ds then in_range64 (digits_value ds 0)
      else (0, Some ErrSyntax)
  | String _ _ =>
      if all_digits x then in_range64 (digits_value x 0)
      else (0, Some ErrSyntax)
  | EmptyString => (0, Some ErrSyntax)
  end.

(** A Go function result [(A, error)]; an error is its message. *)
Inductive result (A : Type) :=
  | Val (a : A)
  | Err (msg : string).
Arguments Val {A} a.
Arguments Err {A} msg.

End Go.

(** ** OID utilities *)

Definition OidToList (oid : string) : list Z :=
  foldl (λ result x, let o := (Go.Atoi x).1 in result ++ [o]) []
    (Go.Split_dot oid).

(** The loop of [splitOid]; [i] is the position of the next element. *)
Fixpoint splitOid_loop (oid : list Z) (i : nat) (count : Z)
    (head tail : list Z) : list Z * list Z :=
  match oid with
  | [] => (head, tail)
  | v :: oid' =>
      if Z.of_nat i <? count
      then splitOid_loop oid' (S i) count (<[i := v]> head) tail
      else splitOid_loop oid' (S i) count head (tail ++ [Z.of_nat i])
  end.

Definition splitOid (oid : list Z) (count : Z) : panics (list Z * list Z) :=
  head ← make 0 count;
  Ok (splitOid_loop oid 0 count head []).

(** ** Configuration and retrieved values

    [Module], [Metric], [Index] and [Lookup] are declared in the
    configuration file of the package; the fields are those [main.go] reads.
    [SnmpPDU] is the client library's; [Value] lists the dynamic types that
    [pduValueAsString] tells apart. *)

Record Index := {
  Index_Labelname : string;
  Index_Type : string;
}.

Record Lookup := {
  Lookup_Labels : list string;
  Lookup_Labelname : string;
  Lookup_Oid : string;
}.

Record Metric := {
  Metric_Name : string;
  Metric_Oid : string;
  Metric_Indexes : list Index;
  Metric_Lookups : list Lookup;
}.

Record Module_ := {
  Module_Walk : list string;
  Module_Metrics : list Metric;
}.

Inductive Value :=
  | VInt (v : Z)
  | VUint (v : Z)
  | VInt64 (v : Z)
  | VString (s : string)
  | VBytes (bs : list ascii)
  | VOther (sprint_s : string).

Definition Asn1BER := Z.
Definition ObjectIdentifier : Asn1BER := 6.

Record SnmpPDU := {
  PDU_Name : string;
  PDU_Type : Asn1BER;
  PDU_Value : Value;
}.

(** [s[1:]] on a string *)
Definition slice_from_1 (s : string) : panics string :=
  match s with
  | EmptyString => Panic SliceBoundsOutOfRange
  | String _ s' => Ok s'
  end.

Definition pduValueAsString (pdu : SnmpPDU) : panics string :=
  match PDU_Value pdu with
  | VInt v => Ok (Go.string_of_int v)
  | VUint v => Ok (Go.string_of_int v)
  | VInt64 v => Ok (Go.string_of_int v)
  | VString s =>
      if decide (PDU_Type pdu = ObjectIdentifier) then slice_from_1 s
      else Ok s
  | VBytes bs => Ok (Go.string_of_bytes bs)
  | VOther sprint_s => Ok sprint_s
  end.

(** ** Index decoder and lookup resolver *)

(** The three variables the loops of [indexesToLabels] update. *)
Record Decoding := {
  labels : gmap string string;
  labelOids : gmap string (list Z);
  indexOids : list Z;
}.

(** [for i := 0; i < 8; i++ { parts[i] = Sprintf("%02X%02X", ...) }] *)
Definition ipv6_part (address : list Z) (parts : list string) (i : nat)
    : panics (list string) :=
  hi ← index address (i * 2);
  lo ← index address (i * 2 + 1);
  store parts i (Go.fmt_02X hi +:+ Go.fmt_02X lo).

Definition inetAddressTypeName (v : Z) : string :=
  if v =? 0 then "unknown"
  else if v =? 1 then "ipv4"
  else if v =? 2 then "ipv6"
  else if v =? 3 then "ipv4v"
  else if v =? 4 then "ipv6v"
  else if v =? 16 then "dns"
  else Go.string_of_int v.

(** One iteration of the loop over [metric.Indexes]. *)
Definition decodeIndex (st : Decoding) (index : Index) : panics Decoding :=
  let name := Index_Labelname index in
  let ty := Index_Type index in
  if decide (ty = "Integer32") then
    '(subOid, indexOids) ← splitOid (indexOids st) 1;
    let labelOids := <[name := subOid]> (labelOids st) in
    o ← Runtime.index subOid 0;
    Ok {| labels := <[name := Go.fmt_d o]> (labels st);
          labelOids := labelOids; indexOids := indexOids |}
  else if decide (ty = "PhysAddress48") then
    '(subOid, indexOids) ← splitOid (indexOids st) 6;
    let labelOids := <[name := subOid]> (labelOids st) in
    parts ← make "" 6;
    parts ← store_each Go.fmt_02X subOid 0 parts;
    Ok {| labels := <[name := Go.Join parts ":"]> (labels st);
          labelOids := labelOids; indexOids := indexOids |}
  else if decide (ty = "OctetString") then
    '(subOid, indexOids) ← splitOid (indexOids st) 1;
    length ← Runtime.index subOid 0;
    '(content, indexOids) ← splitOid indexOids length;
    let labelOids := <[name := subOid ++ content]> (labelOids st) in
    parts ← make (Go.byte_of 0) length;
    parts ← store_each Go.byte_of content 0 parts;
    Ok {| labels := <[name := Go.string_of_bytes parts]> (labels st);
          labelOids := labelOids; indexOids := indexOids |}
  else if decide (ty = "InetAddress") then
    '(addressType, indexOids) ← splitOid (indexOids st) 1;
    '(octets, indexOids) ← splitOid indexOids 1;
    n ← Runtime.index octets 0;
    '(address, indexOids) ← splitOid indexOids n;
    let labelOids := <[name := addressType ++ octets]> (labelOids st) in
    let labelOids :=
      <[name := default [] (labelOids !! name) ++ address]> labelOids in
    t ← Runtime.index addressType 0;
    if t =? 1 then
      parts ← make "" 4;
      parts ← store_each Go.string_of_int address 0 parts;
      Ok {| labels := <[name := Go.Join parts "."]> (labels st);
            labelOids := labelOids; indexOids := indexOids |}
    else if t =? 2 then
      parts ← make "" 8;
      parts ← for_each (ipv6_part address) parts (seq 0 8);
      Ok {| labels := <[name := Go.Join parts ":"]> (labels st);
            labelOids := labelOids; indexOids := indexOids |}
    else
      Ok {| labels := labels st;
            labelOids := labelOids; indexOids := indexOids |}
  else if decide (ty = "IpAddress") then
    '(subOid, indexOids) ← splitOid (indexOids st) 4;
    let labelOids := <[name := subOid]> (labelOids st) in
    parts ← make "" 3;
    parts ← store_each Go.string_of_int subOid 0 parts;
    Ok {| labels := <[name := Go.Join parts "."]> (labels st);
          labelOids := labelOids; indexOids := indexOids |}
  else if decide (ty = "InetAddressType") then
    '(subOid, indexOids) ← splitOid (indexOids st) 1;
    let labelOids := <[name := subOid]> (labelOids st) in
    o ← Runtime.index subOid 0;
    Ok {| labels := <[name := inetAddressTypeName o]> (labels st);
          labelOids := labelOids; indexOids := indexOids |}
  else Ok st.

(** The target OID of a lookup: [oid = Sprintf("%s.%d", oid, o)] for every
    raw component [o] of every referenced label; a label that is not a key
    of [labelOids] reads as the nil slice. *)
Definition appendOid (oid : string) (o : Z) : string :=
  oid +:+ "." +:+ Go.fmt_d o.

Definition lookupOid (labelOids : gmap string (list Z)) (lookup : Lookup)
    : string :=
  foldl (λ oid label, foldl appendOid oid (default [] (labelOids !! label)))
    (Lookup_Oid lookup) (Lookup_Labels lookup).

(** One iteration of the loop over [metric.Lookups]. *)
Definition performLookup (oidToPdu : gmap string SnmpPDU)
    (labelOids : gmap string (list Z)) (labels : gmap string string)
    (lookup : Lookup) : panics (gmap string string) :=
  match oidToPdu !! lookupOid labelOids lookup with
  | Some pdu =>
      v ← pduValueAsString pdu;
      Ok (<[Lookup_Labelname lookup := v]> labels)
  | None => Ok labels
  end.

Definition indexesToLabels (indexOids : list Z) (metric : Metric)
    (oidToPdu : gmap string SnmpPDU) : panics (gmap string string) :=
  st ← for_each decodeIndex
         {| labels := ∅; labelOids := ∅; indexOids := indexOids |}
         (Metric_Indexes metric);
  for_each (performLookup oidToPdu (labelOids st)) (labels st)
    (Metric_Lookups metric).

(** ** Metric trie *)

#[warnings="-register-all"]
Inductive MetricNode := Node {
  metric : option Metric;
  children : gmap Z MetricNode;
}.

Definition emptyNode : MetricNode := {| metric := None; children := ∅ |}.

(** The inner loop of [buildMetricTree] followed by [head.metric = metric]:
    descend from [head] along the components, creating the missing
    children, and attach the metric to the node reached. *)
Fixpoint attachMetric (oidList : list Z) (m : Metric) (head : MetricNode)
    : MetricNode :=
  match oidList with
  | [] => {| metric := Some m; children := children head |}
  | o :: oidList' =>
      let child := default emptyNode (children head !! o) in
      {| metric := metric head;
         children := <[o := attachMetric oidList' m child]> (children head) |}
  end.

Definition buildMetricTree (metrics : list Metric) : MetricNode :=
  foldl (λ metricTree m, attachMetric (OidToList (Metric_Oid m)) m metricTree)
    emptyNode metrics.

(** The inner loop of [PduLoop] in [Collect]: the metric found and
    [oidList[i+1:]], or nothing when the walk leaves the tree or the
    components run out. *)
Fixpoint matchPdu (head : MetricNode) (oidList : list Z)
    : option (Metric * list Z) :=
  match oidList with
  | [] => None
  | o :: oidList' =>
      match children head !! o with
      | None => None
      | Some head' =>
          match metric head' with
          | Some m => Some (m, oidList')
          | None => matchPdu head' oidList'
          end
      end
  end.

(** ** Scrape orchestrator *)

(** What [Collect] sends on its channel.  The two durations are wall-clock
    readings and carry no value here. *)
Inductive Sample :=
  | WalkDuration
  | PdusReturned (n : nat)
  | MetricSample (name : string) (labels : gmap string string) (value : Z)
  | ScrapeDuration.

Definition Version1 : Z := 0.
Definition Version2c : Z := 1.

Record GoSNMP := {
  Target : string;
  Port : Z;
  Version : Z;
  Community : string;
  Timeout_seconds : Z;
  Retries : Z;
  MaxRepetitions : Z;
}.

Record collector := {
  target : string;
  module : Module_;
}.

(** [oidToPdu[pdu.Name[1:]] = pdu], the body of the first loop of
    [Collect]. *)
Definition indexPdu (oidToPdu : gmap string SnmpPDU) (pdu : SnmpPDU)
    : panics (gmap string SnmpPDU) :=
  oid ← slice_from_1 (PDU_Name pdu);
  Ok (<[oid := pdu]> oidToPdu).

Section Scrape.

(** The collaborators outside the package: the resolver's
    [net.SplitHostPort], the SNMP client ([Connect], [WalkAll],
    [BulkWalkAll], acting on a connection of type [Conn]) and
    [gosnmp.ToBigInt(v).Int64()]. *)
Context {Conn : Type}.
Variable SplitHostPort : string → Go.result (string * string).
Variable Connect : GoSNMP → Go.result Conn.
Variable WalkAll BulkWalkAll :
  GoSNMP → Conn → string → Go.result (list SnmpPDU) * Conn.
Variable ToBigInt_Int64 : Value → Z.

(** [snmp.WalkAll] under version 1, [snmp.BulkWalkAll] otherwise. *)
Definition walkOne (snmp : GoSNMP) (conn : Conn) (subtree : string)
    : Go.result (list SnmpPDU) * Conn :=
  if Version snmp =? Version1 then WalkAll snmp conn subtree
  else BulkWalkAll snmp conn subtree.

(** The loop over [config.Walk] in [ScrapeTarget]. *)
Fixpoint walkSubtrees (snmp : GoSNMP) (conn : Conn) (walk : list string)
    (result : list SnmpPDU) : Go.result (list SnmpPDU) :=
  match walk with
  | [] => Go.Val result
  | subtree :: walk' =>
      match walkOne snmp conn subtree with
      | (Go.Err err, _) =>
          Go.Err ("Error walking target " +:+ Target snmp +:+ ": " +:+ err)
      | (Go.Val pdus, conn') =>
          walkSubtrees snmp conn' walk' (result ++ pdus)
      end
  end.

Definition numErrorText (e : Go.NumError) : string :=
  match e with
  | Go.ErrSyntax => "invalid syntax"
  | Go.ErrRange => "value out of range"
  end.

(** [ScrapeTarget] up to and including [snmp.Connect()]: the options of
    the client, and the connection. *)
Definition connectTarget (target : string) : Go.result (GoSNMP * Conn) :=
  let options :=
    match SplitHostPort target with
    | Go.Val (host, port) =>
        match Go.Atoi port with
        | (_, Some err) =>
            Go.Err ("Error converting port number to int for target "
                    +:+ target +:+ ": " +:+ numErrorText err)
        | (p, None) => Go.Val (host, p mod 65536)
        end
    | Go.Err _ => Go.Val (target, 161)
    end in
  match options with
  | Go.Err msg => Go.Err msg
  | Go.Val (host, port) =>
      let snmp := {| Target := host; Port := port; Version := Version2c;
                     Community := "public"; Timeout_seconds := 60;
                     Retries := 3; MaxRepetitions := 25 |} in
      match Connect snmp with
      | Go.Err err =>
          Go.Err ("Error connecting to target " +:+ target +:+ ": " +:+ err)
      | Go.Val conn => Go.Val (snmp, conn)
      end
  end.

Definition ScrapeTarget (target : string) (config : Module_)
    : Go.result (list SnmpPDU) :=
  match connectTarget target with
  | Go.Err msg => Go.Err msg
  | Go.Val (snmp, conn) => walkSubtrees snmp conn (Module_Walk config) []
  end.

(** [pduToSample]; the metrics library's check of the metric and label
    names in [MustNewConstMetric] is outside the model. *)
Definition pduToSample (indexOids : list Z) (pdu : SnmpPDU)
    (metric : Metric) (oidToPdu : gmap string SnmpPDU) : panics Sample :=
  labels ← indexesToLabels indexOids metric oidToPdu;
  Ok (MetricSample (Metric_Name metric) labels
        (ToBigInt_Int64 (PDU_Value pdu))).

(** [PduLoop] over the entries of [oidToPdu], in the order the map hands
    them out: the samples sent, and whether the loop ran to its end. *)
Fixpoint pduLoop (metricTree : MetricNode) (oidToPdu : gmap string SnmpPDU)
    (entries : list (string * SnmpPDU)) : list Sample * panics () :=
  match entries with
  | [] => ([], Ok ())
  | (oid, pdu) :: entries' =>
      match matchPdu metricTree (OidToList oid) with
      | None => pduLoop metricTree oidToPdu entries'
      | Some (metric, indexOids) =>
          match pduToSample indexOids pdu metric oidToPdu with
          | Panic r => ([], Panic r)
          | Ok sample =>
              let '(sent, outcome) := pduLoop metricTree oidToPdu entries' in
              (sample :: sent, outcome)
          end
      end
  end.

(** [Collect]: everything sent on [ch], and whether the call returned. *)
Definition Collect (c : collector) : list Sample * panics () :=
  match ScrapeTarget (target c) (module c) with
  | Go.Err _ => ([], Ok ())
  | Go.Val pdus =>
      let ch := [WalkDuration; PdusReturned (length pdus)] in
      match for_each indexPdu ∅ pdus with
      | Panic r => (ch, Panic r)
      | Ok oidToPdu =>
          let metricTree := buildMetricTree (Module_Metrics (module c)) in
          match pduLoop metricTree oidToPdu (map_to_list oidToPdu) with
          | (sent, Panic r) => (ch ++ sent, Panic r)
          | (sent, Ok _) => (ch ++ sent ++ [ScrapeDuration], Ok ())
          end
      end
  end.

(** Some root of the walk list fails: the roots in front of it were
    retrieved, each from the connection its predecessor left. *)
Inductive walkFails (snmp : GoSNMP) : Conn → list string → Prop :=
  | walkFails_here conn subtree walk err conn' :
      walkOne snmp conn subtree = (Go.Err err, conn') →
      walkFails snmp conn (subtree :: walk)
  | walkFails_later conn subtree walk pdus conn' :
      walkOne snmp conn subtree = (Go.Val pdus, conn') →
      walkFails snmp conn' walk →
      walkFails snmp conn (subtree :: walk).

End Scrape.

(** ** Vocabulary of the properties *)

(** A metric with a single index and no lookup. *)
Definition oneIndex (name ty : string) : Metric :=
  {| Metric_Name := "m"; Metric_Oid := "1.3.6.1";
     Metric_Indexes := [{| Index_Labelname := name; Index_Type := ty |}];
     Metric_Lookups := [] |}.

(** The specification's reading of a lookup target: the base OID followed
    by the decimal components, joined by dots. *)
Definition dotJoined (base : string) (components : list Z) : string :=
  Go.Join (base :: (Go.fmt_d <$> components)) ".".

(** The raw components of the referenced labels, in the declared order. *)
Definition referencedComponents (labelOids : gmap string (list Z))
    (lookup : Lookup) : list Z :=
  concat ((λ label, default [] (labelOids !! label)) <$> Lookup_Labels lookup).

(** *** Integers and dotted strings *)

(** The values of Go's 64-bit [int]. *)
Definition is_int (v : Z) : Prop := - 2 ^ 63 ≤ v < 2 ^ 63.

(** The string holds no dot. *)
Fixpoint dotless (s : string) : bool :=
  match s with
  | EmptyString => true
  | String c s' => negb (Ascii.eqb c ".") && dotless s'
  end.

(** *** OID paths and the trie *)

Definition oidPath (m : Metric) : list Z := OidToList (Metric_Oid m).

(** No metric's OID path is a prefix of, or equal to, the path of a metric
    at another place of the list. *)
Definition NonOverlapping (metrics : list Metric) : Prop :=
  ∀ i j mi mj,
    metrics !! i = Some mi → metrics !! j = Some mj → i ≠ j →
    ¬ oidPath mi `prefix_of` oidPath mj.

Definition StrictDescendant (oidList path : list Z) : Prop :=
  path `prefix_of` oidList ∧ (length path < length oidList)%nat.

(** The node at the end of [path], and the metric attached to it. *)
Fixpoint descend (head : MetricNode) (path : list Z) : option MetricNode :=
  match path with
  | [] => Some head
  | o :: path' => children head !! o ≫= λ child, descend child path'
  end.

Definition owner (head : MetricNode) (path : list Z) : option Metric :=
  descend head path ≫= metric.

(** *** A configuration and some devices *)

Module Example.

Definition ifIndex : Index :=
  {| Index_Labelname := "ifIndex"; Index_Type := "Integer32" |}.

Definition ifInOctets : Metric :=
  {| Metric_Name := "ifInOctets"; Metric_Oid := "1.3.6.1.2.1.2.2.1.10";
     Metric_Indexes := [ifIndex]; Metric_Lookups := [] |}.

Definition ifOutOctets : Metric :=
  {| Metric_Name := "ifOutOctets"; Metric_Oid := "1.3.6.1.2.1.2.2.1.16";
     Metric_Indexes := [ifIndex]; Metric_Lookups := [] |}.

Definition interfaces : Module_ :=
  {| Module_Walk := ["1.3.6.1.2.1.2"; "1.3.6.1.2.1.31"];
     Module_Metrics := [ifInOctets; ifOutOctets] |}.

Definition router : collector :=
  {| target := "192.0.2.1"; module := interfaces |}.

Definition noPort (target : string) : Go.result (string * string) :=
  Go.Err "missing port in address".

(** A connection counts the requests it has answered. *)
Definition connect (snmp : GoSNMP) : Go.result nat := Go.Val 0%nat.

Definition counter (name : string) (v : Z) : SnmpPDU :=
  {| PDU_Name := name; PDU_Type := 65; PDU_Value := VUint v |}.

(** A device that answers one request and times out on the next. *)
Definition flaky (snmp : GoSNMP) (conn : nat) (subtree : string)
    : Go.result (list SnmpPDU) * nat :=
  match conn with
  | O => (Go.Val [counter ".1.3.6.1.2.1.2.2.1.10.7" 1200], S conn)
  | S _ => (Go.Err "request timeout", S conn)
  end.

(** A device whose second PDU has no name. *)
Definition nameless (snmp : GoSNMP) (conn : nat) (subtree : string)
    : Go.result (list SnmpPDU) * nat :=
  (Go.Val [counter ".1.3.6.1.2.1.2.2.1.10.7" 1200; counter "" 0], S conn).

Definition toInt64 (v : Value) : Z :=
  match v with
  | VInt v | VUint v | VInt64 v => v
  | _ => 0
  end.

End Example.

(** *** More configurations *)

Module Scenario.

(** A metric on the whole interface table, above [Example.ifInOctets]. *)
Definition ifTable : Metric :=
  {| Metric_Name := "ifTable"; Metric_Oid := "1.3.6.1.2.1.2.2";
     Metric_Indexes := []; Metric_Lookups := [] |}.

(** A second metric on the OID of [Example.ifInOctets]. *)
Definition ifInOctetsAgain : Metric :=
  {| Metric_Name := "ifInOctets_total"; Metric_Oid := "1.3.6.1.2.1.2.2.1.10";
     Metric_Indexes := [Example.ifIndex]; Metric_Lookups := [] |}.



(** Every target is the host 192.0.2.7 with the port 65697. *)
Definition hostPort (target : string) : Go.result (string * string) :=
  Go.Val ("192.0.2.7", "65697").

(** A device that returns the counter of interface 7 for every root. *)
Definition oneCounter (snmp : GoSNMP) (conn : nat) (subtree : string)
    : Go.result (list SnmpPDU) * nat :=
  (Go.Val [Example.counter ".1.3.6.1.2.1.2.2.1.10.7" 1200], S conn).

(** A device that returns its uptime for every root. *)
Definition uptimeOnly (snmp : GoSNMP) (conn : nat) (subtree : string)
    : Go.result (list SnmpPDU) * nat :=
  (Go.Val [Example.counter ".1.3.6.1.2.1.1.3.0" 42], S conn).

(** A metric indexed by an IPv4 address. *)
Definition ipAdEntIfIndex : Metric :=
  {| Metric_Name := "ipAdEntIfIndex"; Metric_Oid := "1.3.6.1.2.1.4.20.1.2";
     Metric_Indexes :=
       [{| Index_Labelname := "ipAdEntAddr"; Index_Type := "IpAddress" |}];
     Metric_Lookups := [] |}.

Definition addresses : collector :=
  {| target := "192.0.2.7";
     module := {| Module_Walk := ["1.3.6.1.2.1.4.20"];
                  Module_Metrics := [ipAdEntIfIndex] |} |}.

(** A device with the address 10.0.0.1 on interface 2. *)
Definition oneAddress (snmp : GoSNMP) (conn : nat) (subtree : string)
    : Go.result (list SnmpPDU) * nat :=
  (Go.Val [{| PDU_Name := ".1.3.6.1.2.1.4.20.1.2.10.0.0.1"; PDU_Type := 2;
              PDU_Value := VInt 2 |}], S conn).

End Scenario.


(** * Properties *)

(** ** [splitOid] *)

Lemma splitOid_loop_length oid i count head tail :
  length (splitOid_loop oid i count head tail).1 = length head.
Proof.
  revert i head tail.
  induction oid as [|v oid IH]; intros i head tail; simpl; [done|].
  destruct (Z.of_nat i <? count); rewrite IH; [apply length_insert | done].
Qed.

(** The head always has [count] elements. *)
Lemma splitOid_head_length oid count head tail :
  splitOid oid count = Ok (head, tail) → Z.of_nat (length head) = count.
Proof.
  unfold splitOid, make. destruct (count <? 0) eqn:Hc; simpl; [done|].
  intros [= H].
  pose proof (splitOid_loop_length oid 0 count
                (replicate (Z.to_nat count) 0) []) as L.
  rewrite H, length_replicate in L. simpl in L. lia.
Qed.

Lemma splitOid_returns oid count :
  0 ≤ count → ∃ head tail, splitOid oid count = Ok (head, tail).
Proof.
  intros Hc. unfold splitOid, make.
  destruct (count <? 0) eqn:E; [lia|]. simpl.
  destruct (splitOid_loop _ _ _ _ _) as [head tail]. eauto.
Qed.

Lemma splitOid_negative oid count :
  count < 0 → splitOid oid count = Panic MakeSliceLenOutOfRange.
Proof.
  intros Hc. unfold splitOid, make. destruct (count <? 0) eqn:E; [done|lia].
Qed.

(** What the loop computes: the elements in front of [count] overwrite the
    head in place, and every later element adds its position to the tail. *)
Lemma splitOid_loop_spec oid i count head tail :
  0 ≤ count →
  splitOid_loop oid i count head tail =
    (foldl (λ h '(j, v), <[j := v]> h) head
       (zip (seq i (Z.to_nat count - i)) oid),
     tail ++ (Z.of_nat <$> seq (Nat.max i (Z.to_nat count))
                ((i + length oid) - Nat.max i (Z.to_nat count)))).
Proof.
  intros Hc. revert i head tail.
  induction oid as [|v oid IH]; intros i head tail; simpl.
  - replace ((i + 0) - _)%nat with 0%nat by lia. simpl.
    rewrite app_nil_r. by destruct (seq _ _).
  - destruct (Z.of_nat i <? count) eqn:E.
    + apply Z.ltb_lt in E. rewrite IH.
      replace (Z.to_nat count - i)%nat with (S (Z.to_nat count - S i)) by lia.
      simpl. do 4 f_equal; lia.
    + apply Z.ltb_ge in E. rewrite IH.
      replace (Z.to_nat count - i)%nat with 0%nat by lia.
      replace (Z.to_nat count - S i)%nat with 0%nat by lia. simpl.
      rewrite <- app_assoc. do 2 f_equal.
      replace (Nat.max i (Z.to_nat count)) with i by lia.
      replace (Nat.max (S i) (Z.to_nat count)) with (S i) by lia.
      replace ((i + S (length oid)) - i)%nat
        with (S ((S i + length oid) - S i)) by lia.
      done.
Qed.

(** The tail of [splitOid] lists the positions [count, count+1, ...] of
    the elements behind the head, whatever those elements are. *)
Lemma splitOid_tail_positions oid count head tail :
  splitOid oid count = Ok (head, tail) →
  tail = Z.of_nat <$> seq (Z.to_nat count) (length oid - Z.to_nat count).
Proof.
  intros H. assert (0 ≤ count) as Hc.
  { destruct (decide (0 ≤ count)); [done|].
    rewrite splitOid_negative in H by lia. done. }
  revert H. unfold splitOid, make. destruct (count <? 0) eqn:E; [lia|].
  simpl. rewrite splitOid_loop_spec by done. intros [= _ <-].
  simpl. do 2 f_equal; lia.
Qed.

(** C1: [splitOid] on [7,8,9] with [count = 1] returns the head [7] and,
    as tail, the positions [1,2] of the remaining elements instead of the
    elements [8,9] themselves. *)
Theorem splitOid_tail_is_positions :
  splitOid [7; 8; 9] 1 = Ok ([7], [1; 2]) ∧
  splitOid [7; 8; 9] 1 ≠ Ok ([7], [8; 9]).
Proof. split; [reflexivity | discriminate]. Qed.

(** ** Index decoding *)

Lemma store_each_overflow {A B} (f : A → B) src from dst :
  (from ≤ length dst < from + length src)%nat →
  store_each f src from dst = Panic IndexOutOfRange.
Proof.
  revert from dst. induction src as [|o src IH]; intros from dst; simpl.
  - lia.
  - intros Hlen. unfold store. destruct (decide (from < length dst)%nat).
    + simpl. apply IH. rewrite length_insert. lia.
    + done.
Qed.

Lemma store_each_fits {A B} (f : A → B) src from dst :
  (from + length src ≤ length dst)%nat →
  ∃ dst', store_each f src from dst = Ok dst' ∧ length dst' = length dst.
Proof.
  revert from dst. induction src as [|o src IH]; intros from dst; simpl.
  - eauto.
  - intros Hlen. unfold store. destruct (decide (from < length dst)%nat).
    + simpl. destruct (IH (S from) (<[from := f o]> dst)) as (dst' & -> & L).
      { rewrite length_insert. lia. }
      exists dst'. by rewrite L, length_insert.
    + lia.
Qed.

(** An [IpAddress] index copies the four components of its head into a
    slice made for three. *)
Lemma decodeIndex_IpAddress st name :
  decodeIndex st {| Index_Labelname := name; Index_Type := "IpAddress" |}
  = Panic IndexOutOfRange.
Proof.
  unfold decodeIndex. simpl Index_Type.
  repeat (case_decide; [discriminate|]). case_decide; [|done].
  destruct (splitOid_returns (indexOids st) 4) as (head & tail & E); [lia|].
  rewrite E. simpl. apply splitOid_head_length in E.
  rewrite store_each_overflow; [done | simpl; lia].
Qed.

(** C2: decoding does fail at run time.  A metric with an [IpAddress]
    index panics on every suffix, the empty one included, and an
    [InetAddress] index of address type 2 panics on the short suffix [2]. *)
Theorem indexesToLabels_panics :
  (∀ indexOids name oidToPdu,
     indexesToLabels indexOids (oneIndex name "IpAddress") oidToPdu
     = Panic IndexOutOfRange) ∧
  indexesToLabels [] (oneIndex "ip" "IpAddress") ∅ = Panic IndexOutOfRange ∧
  indexesToLabels [2] (oneIndex "addr" "InetAddress") ∅
  = Panic IndexOutOfRange.
Proof.
  split; [|split].
  - intros indexOids name oidToPdu. unfold indexesToLabels. simpl.
    by rewrite decodeIndex_IpAddress.
  - vm_compute. reflexivity.
  - vm_compute. reflexivity.
Qed.

(** C6: the suffix [1,4,192,168,1,1] decoded as an [InetAddress] gives the
    label of one byte 1 followed by three dots, not "192.168.1.1". *)
Theorem InetAddress_ipv4_label :
  indexesToLabels [1; 4; 192; 168; 1; 1] (oneIndex "addr" "InetAddress") ∅
  = Ok {[ "addr" := String (ascii_of_nat 1) "..." ]} ∧
  indexesToLabels [1; 4; 192; 168; 1; 1] (oneIndex "addr" "InetAddress") ∅
  ≠ Ok {[ "addr" := "192.168.1.1" ]}.
Proof. split; [vm_compute; reflexivity | vm_compute; discriminate]. Qed.

(** C7, as stated, fails: no label map decoded from [0,26,171,62,86,255]
    holds "AA:1A:AB:3E:56:FF" under the index's label. *)
Lemma PhysAddress48_label_not_AA :
  ¬ ∃ labels,
      indexesToLabels [0; 26; 171; 62; 86; 255]
        (oneIndex "mac" "PhysAddress48") ∅ = Ok labels ∧
      labels !! "mac" = Some "AA:1A:AB:3E:56:FF".
Proof.
  intros (labels & Hrun & Hlabel).
  vm_compute in Hrun. injection Hrun as <-.
  vm_compute in Hlabel. discriminate.
Qed.

(** C7, amended: decoding a [PhysAddress48] index from the suffix
    [0,26,171,62,86,255] yields the label "00:1A:AB:3E:56:FF", for every
    label name and every set of retrieved PDUs. *)
Theorem PhysAddress48_label name oidToPdu :
  indexesToLabels [0; 26; 171; 62; 86; 255] (oneIndex name "PhysAddress48")
    oidToPdu
  = Ok {[ name := "00:1A:AB:3E:56:FF" ]}.
Proof.
  unfold indexesToLabels, oneIndex. simpl Metric_Indexes. simpl Metric_Lookups.
  unfold for_each at 2. unfold decodeIndex. simpl Index_Type.
  repeat (case_decide; [discriminate|]). case_decide; [|done].
  reflexivity.
Qed.

(** ** PDU values *)

(** C5: an integer value is converted as a code point: 65 becomes "A", not
    "65", under each of the three integer types. *)
Theorem pduValueAsString_int_is_code_point :
  (∀ name ty,
     pduValueAsString {| PDU_Name := name; PDU_Type := ty;
                         PDU_Value := VInt 65 |} = Ok "A") ∧
  (∀ name ty,
     pduValueAsString {| PDU_Name := name; PDU_Type := ty;
                         PDU_Value := VUint 65 |} = Ok "A") ∧
  (∀ name ty,
     pduValueAsString {| PDU_Name := name; PDU_Type := ty;
                         PDU_Value := VInt64 65 |} = Ok "A") ∧
  Go.fmt_d 65 = "65".
Proof. repeat split. Qed.

(** ** Lookup resolution *)

Lemma string_app_assoc (s1 s2 s3 : string) :
  (s1 +:+ s2) +:+ s3 = s1 +:+ s2 +:+ s3.
Proof.
  induction s1 as [|c s1 IH]; [done|].
  change (String c ((s1 +:+ s2) +:+ s3) = String c (s1 +:+ s2 +:+ s3)).
  by rewrite IH.
Qed.

Lemma Join_cons_cons (a b : string) rest sep :
  Go.Join (a :: b :: rest) sep = a +:+ sep +:+ Go.Join (b :: rest) sep.
Proof. reflexivity. Qed.

Lemma Join_glue (a b : string) rest sep :
  Go.Join ((a +:+ sep +:+ b) :: rest) sep = Go.Join (a :: b :: rest) sep.
Proof.
  destruct rest as [|r rest]; [done|].
  rewrite (Join_cons_cons a b), (Join_cons_cons b r).
  rewrite (Join_cons_cons (a +:+ sep +:+ b) r).
  by rewrite !string_app_assoc.
Qed.

Lemma appendOid_dotJoined base components :
  foldl appendOid base components = dotJoined base components.
Proof.
  revert base. induction components as [|o cs IH]; intros base; [done|].
  simpl. rewrite IH. unfold dotJoined, appendOid. simpl fmap.
  apply Join_glue.
Qed.

Lemma lookupOid_foldl (labelOids : gmap string (list Z)) base
    (labels : list string) :
  foldl (λ oid label, foldl appendOid oid (default [] (labelOids !! label)))
    base labels
  = foldl appendOid base
      (concat ((λ label, default [] (labelOids !! label)) <$> labels)).
Proof.
  revert base. induction labels as [|l ls IH]; intros base; [done|].
  simpl. by rewrite IH, foldl_app.
Qed.

Lemma lookupOid_dotJoined labelOids lookup :
  lookupOid labelOids lookup
  = dotJoined (Lookup_Oid lookup) (referencedComponents labelOids lookup).
Proof.
  unfold lookupOid, referencedComponents.
  by rewrite lookupOid_foldl, appendOid_dotJoined.
Qed.



(** C10: a referenced label without recorded raw components adds nothing
    to the target OID, which is the one built without that label. *)
Theorem lookupOid_skips_unrecorded (labelOids : gmap string (list Z))
    (before after : list string) (label labelname base : string) :
  labelOids !! label = None →
  lookupOid labelOids {| Lookup_Labels := before ++ label :: after;
                         Lookup_Labelname := labelname; Lookup_Oid := base |}
  = lookupOid labelOids {| Lookup_Labels := before ++ after;
                           Lookup_Labelname := labelname;
                           Lookup_Oid := base |}.
Proof.
  intros Hnone. unfold lookupOid. simpl.
  rewrite !foldl_app. simpl. by rewrite Hnone.
Qed.

Lemma lookupOid_skips_unrecorded_witness :
  lookupOid {[ "ifIndex" := [7] ]}
    {| Lookup_Labels := ["ifIndex"; "vlan"]; Lookup_Labelname := "ifDescr";
       Lookup_Oid := "1.3.6.1.2.1.2.2.1.2" |}
  = "1.3.6.1.2.1.2.2.1.2.7".
Proof.
  rewrite (lookupOid_skips_unrecorded {[ "ifIndex" := [7] ]}
             ["ifIndex"] [] "vlan" "ifDescr" "1.3.6.1.2.1.2.2.1.2").
  - reflexivity.
  - reflexivity.
Defined.

(** ** The PDU map of [Collect] *)

Lemma indexPdu_String oidToPdu pdu ch oid :
  PDU_Name pdu = String ch oid →
  indexPdu oidToPdu pdu = Ok (<[oid := pdu]> oidToPdu).
Proof. intros H. unfold indexPdu. by rewrite H. Qed.

Lemma indexPdu_empty_name oidToPdu pdu :
  PDU_Name pdu = "" → indexPdu oidToPdu pdu = Panic SliceBoundsOutOfRange.
Proof. intros H. unfold indexPdu. by rewrite H. Qed.

Lemma indexPdu_all_empty_name oidToPdu pdus :
  (∃ pdu, pdu ∈ pdus ∧ PDU_Name pdu = "") →
  for_each indexPdu oidToPdu pdus = Panic SliceBoundsOutOfRange.
Proof.
  revert oidToPdu. induction pdus as [|p pdus IH]; intros oidToPdu.
  - intros (pdu & Hin & _). by apply elem_of_nil in Hin.
  - intros (pdu & Hin & Hname). simpl.
    destruct (PDU_Name p) as [|ch oid] eqn:Hp.
    + by rewrite indexPdu_empty_name.
    + rewrite (indexPdu_String _ _ ch oid) by done. simpl.
      apply IH. exists pdu. split; [|done].
      apply elem_of_cons in Hin as [->|Hin]; [congruence | done].
Qed.

Lemma indexPdu_all_returns oidToPdu pdus :
  Forall (λ pdu, PDU_Name pdu ≠ "") pdus →
  ∃ oidToPdu', for_each indexPdu oidToPdu pdus = Ok oidToPdu'.
Proof.
  revert oidToPdu. induction pdus as [|p pdus IH]; intros oidToPdu Hall.
  - by eexists.
  - apply Forall_cons in Hall as [Hp Hall]. simpl.
    destruct (PDU_Name p) as [|ch oid] eqn:E; [done|].
    rewrite (indexPdu_String _ _ ch oid) by done. simpl. by apply IH.
Qed.

(** Every entry of the map is a PDU (or an entry that was already there)
    stored under its name without the first byte, and every PDU has its
    entry. *)
Lemma indexPdu_all_entries oidToPdu pdus oidToPdu' :
  for_each indexPdu oidToPdu pdus = Ok oidToPdu' →
  (∀ oid pdu, oidToPdu' !! oid = Some pdu →
     oidToPdu !! oid = Some pdu ∨
     (pdu ∈ pdus ∧ ∃ ch, PDU_Name pdu = String ch oid)) ∧
  (∀ oid, is_Some (oidToPdu !! oid) → is_Some (oidToPdu' !! oid)) ∧
  (∀ pdu, pdu ∈ pdus →
     ∃ ch oid, PDU_Name pdu = String ch oid ∧ is_Some (oidToPdu' !! oid)).
Proof.
  revert oidToPdu. induction pdus as [|p pdus IH]; intros oidToPdu; simpl.
  - intros [= <-]. split; [|split]; [by left | done |].
    intros pdu Hin. by apply elem_of_nil in Hin.
  - destruct (PDU_Name p) as [|ch0 oid0] eqn:E.
    { by rewrite indexPdu_empty_name. }
    rewrite (indexPdu_String _ _ ch0 oid0) by done. simpl.
    intros Hrun. destruct (IH _ Hrun) as (Hentries & Hkept & Hall).
    split; [|split].
    + intros oid pdu Hget. destruct (Hentries oid pdu Hget) as [Hold|[Hin Hn]].
      * destruct (decide (oid0 = oid)) as [->|Hne].
        -- rewrite lookup_insert_eq in Hold. injection Hold as <-.
           right. split; [apply list_elem_of_here | by exists ch0].
        -- rewrite lookup_insert_ne in Hold by done. by left.
      * right. split; [by apply list_elem_of_further | done].
    + intros oid Hsome. apply Hkept.
      destruct (decide (oid0 = oid)) as [->|Hne].
      * rewrite lookup_insert_eq. by eexists.
      * by rewrite lookup_insert_ne.
    + intros pdu Hin. apply elem_of_cons in Hin as [->|Hin].
      * exists ch0, oid0. split; [done|]. apply Hkept.
        rewrite lookup_insert_eq. by eexists.
      * by apply Hall.
Qed.

Section ScrapeProperties.

Context {Conn : Type}.
Variable SplitHostPort : string → Go.result (string * string).
Variable Connect : GoSNMP → Go.result Conn.
Variable WalkAll BulkWalkAll :
  GoSNMP → Conn → string → Go.result (list SnmpPDU) * Conn.
Variable ToBigInt_Int64 : Value → Z.

(** C9: [Collect] stores every PDU under its name without the first
    byte, whatever that byte is, and a PDU with an empty name makes
    [Collect] panic on the slice expression, after the two walk
    observations have been sent. *)
Theorem Collect_keys_by_name_tail :
  (∀ oidToPdu pdu ch oid,
     PDU_Name pdu = String ch oid →
     indexPdu oidToPdu pdu = Ok (<[oid := pdu]> oidToPdu)) ∧
  (∀ pdus,
     Forall (λ pdu, PDU_Name pdu ≠ "") pdus →
     ∃ oidToPdu,
       for_each indexPdu ∅ pdus = Ok oidToPdu ∧
       (∀ oid pdu, oidToPdu !! oid = Some pdu →
          pdu ∈ pdus ∧ ∃ ch, PDU_Name pdu = String ch oid) ∧
       (∀ pdu, pdu ∈ pdus →
          ∃ ch oid, PDU_Name pdu = String ch oid ∧
                    is_Some (oidToPdu !! oid))) ∧
  (∀ c pdus,
     ScrapeTarget SplitHostPort Connect WalkAll BulkWalkAll
       (target c) (module c) = Go.Val pdus →
     (∃ pdu, pdu ∈ pdus ∧ PDU_Name pdu = "") →
     Collect SplitHostPort Connect WalkAll BulkWalkAll ToBigInt_Int64 c
     = ([WalkDuration; PdusReturned (length pdus)],
        Panic SliceBoundsOutOfRange)).
Proof.
  split; [|split].
  - intros oidToPdu pdu ch oid. apply indexPdu_String.
  - intros pdus Hall.
    destruct (indexPdu_all_returns ∅ pdus Hall) as [oidToPdu Hrun].
    exists oidToPdu. split; [done|].
    destruct (indexPdu_all_entries _ _ _ Hrun) as (Hentries & _ & Hevery).
    split; [|done]. intros oid pdu Hget.
    destruct (Hentries oid pdu Hget) as [Hold|Hnew]; [|done].
    by rewrite lookup_empty in Hold.
  - intros c pdus Hscrape Hempty. unfold Collect.
    rewrite Hscrape. by rewrite indexPdu_all_empty_name.
Qed.

(** ** Failed retrieval *)

Lemma walkSubtrees_fails snmp conn walk result :
  walkFails WalkAll BulkWalkAll snmp conn walk →
  ∃ msg, walkSubtrees WalkAll BulkWalkAll snmp conn walk result = Go.Err msg.
Proof.
  intros Hfails. revert result.
  induction Hfails as [conn subtree walk err conn' Hone
                      |conn subtree walk pdus conn' Hone _ IH];
    intros result; simpl; rewrite Hone; [by eexists | apply IH].
Qed.

Lemma Collect_scrape_error c msg :
  ScrapeTarget SplitHostPort Connect WalkAll BulkWalkAll
    (target c) (module c) = Go.Err msg →
  Collect SplitHostPort Connect WalkAll BulkWalkAll ToBigInt_Int64 c
  = ([], Ok ()).
Proof. intros H. unfold Collect. by rewrite H. Qed.

(** C3: when the retrieval of a root of [module.Walk] fails, [Collect]
    sends nothing, whatever the roots in front of it returned. *)
Theorem Collect_all_or_nothing c snmp conn :
  connectTarget SplitHostPort Connect (target c) = Go.Val (snmp, conn) →
  walkFails WalkAll BulkWalkAll snmp conn (Module_Walk (module c)) →
  Collect SplitHostPort Connect WalkAll BulkWalkAll ToBigInt_Int64 c
  = ([], Ok ()).
Proof.
  intros Hconn Hfails.
  destruct (walkSubtrees_fails snmp conn _ [] Hfails) as [msg Hwalk].
  apply (Collect_scrape_error c msg).
  unfold ScrapeTarget. by rewrite Hconn.
Qed.

End ScrapeProperties.

(** ** Trie matching *)

Lemma OidToList_length oid :
  length (OidToList oid) = length (Go.Split_dot oid).
Proof.
  unfold OidToList. generalize (Go.Split_dot oid). intros pieces.
  enough (∀ acc : list Z,
    length (foldl (λ result x, let o := (Go.Atoi x).1 in result ++ [o])
              acc pieces) = (length acc + length pieces)%nat) as H
    by apply (H []).
  induction pieces as [|x pieces IH]; intros acc; simpl; [lia|].
  rewrite IH, length_app. simpl. lia.
Qed.

Lemma Split_dot_nonempty s : Go.Split_dot s ≠ [].
Proof.
  destruct s as [|c s]; simpl; [done|].
  destruct (Ascii.eqb c "."); [done|]. by destruct (Go.Split_dot s).
Qed.

Lemma oidPath_nonempty m : oidPath m ≠ [].
Proof.
  intros H. apply (f_equal length) in H. unfold oidPath in H.
  rewrite OidToList_length in H.
  pose proof (Split_dot_nonempty (Metric_Oid m)).
  by destruct (Go.Split_dot (Metric_Oid m)).
Qed.

Lemma owner_emptyNode path : owner emptyNode path = None.
Proof. by destruct path. Qed.

Lemma owner_cons head o path :
  owner head (o :: path) = children head !! o ≫= λ child, owner child path.
Proof. unfold owner. simpl. by destruct (children head !! o). Qed.

Lemma owner_attach_same path m head :
  owner (attachMetric path m head) path = Some m.
Proof.
  revert head. induction path as [|o path IH]; intros head; [done|].
  rewrite owner_cons. simpl. rewrite lookup_insert_eq. simpl. apply IH.
Qed.

Lemma owner_attach_other path m head path' :
  path' ≠ path → owner (attachMetric path m head) path' = owner head path'.
Proof.
  revert head path'. induction path as [|o path IH]; intros head path' Hne.
  - destruct path' as [|o' path']; [done|]. by rewrite !owner_cons.
  - destruct path' as [|o' path']; [done|]. rewrite !owner_cons. simpl.
    destruct (decide (o = o')) as [<-|Ho].
    + rewrite lookup_insert_eq. simpl. rewrite IH by congruence.
      destruct (children head !! o); [done | apply owner_emptyNode].
    + by rewrite lookup_insert_ne.
Qed.

Lemma owner_build_none metrics path :
  (∀ m, m ∈ metrics → oidPath m ≠ path) →
  owner (buildMetricTree metrics) path = None.
Proof.
  unfold buildMetricTree.
  induction metrics as [|m metrics IH] using rev_ind; intros Hnone.
  - apply owner_emptyNode.
  - rewrite foldl_snoc, owner_attach_other.
    + apply IH. intros m' Hin. apply Hnone, elem_of_app. by left.
    + intros ->. apply (Hnone m); [|done].
      apply elem_of_app. right. apply list_elem_of_here.
Qed.

Lemma owner_build_some metrics m :
  m ∈ metrics →
  (∀ m', m' ∈ metrics → oidPath m' = oidPath m → m' = m) →
  owner (buildMetricTree metrics) (oidPath m) = Some m.
Proof.
  unfold buildMetricTree.
  induction metrics as [|x metrics IH] using rev_ind; intros Hin Huniq.
  - by apply elem_of_nil in Hin.
  - rewrite foldl_snoc.
    destruct (decide (oidPath x = oidPath m)) as [Heq|Hne].
    + assert (x = m) as ->.
      { apply Huniq; [|done]. apply elem_of_app. right.
        apply list_elem_of_here. }
      apply owner_attach_same.
    + rewrite owner_attach_other by done. apply IH.
      * apply elem_of_app in Hin as [Hin|Hin]; [done|].
        apply list_elem_of_singleton in Hin. congruence.
      * intros m' Hin'. apply Huniq, elem_of_app. by left.
Qed.

(** The walk commits at the first node with a metric: along a path whose
    shorter prefixes own nothing, at the end of the path. *)
Lemma matchPdu_commits head path m suffix :
  path ≠ [] →
  owner head path = Some m →
  (∀ p, p ≠ [] → p `prefix_of` path → p ≠ path → owner head p = None) →
  matchPdu head (path ++ suffix) = Some (m, suffix).
Proof.
  revert head. induction path as [|o path IH]; intros head Hne Hown Hfree.
  { done. }
  rewrite owner_cons in Hown. simpl.
  destruct (children head !! o) as [child|] eqn:Hchild; [|done].
  simpl in Hown. destruct path as [|o' path].
  - unfold owner in Hown. simpl in Hown. by rewrite Hown.
  - assert (metric child = None) as ->.
    { specialize (Hfree [o]). rewrite owner_cons, Hchild in Hfree.
      apply Hfree; [done | | done]. by exists (o' :: path). }
    apply IH; [done | done |].
    intros p Hp Hpre Hpne. specialize (Hfree (o :: p)).
    rewrite owner_cons, Hchild in Hfree. apply Hfree; [done | | congruence].
    by apply prefix_cons.
Qed.

(** C4: among metrics with mutually non-overlapping OID paths, an OID
    list that is a strict descendant of the path of one of them is matched
    to that metric, and the index suffix is the list without its first [n]
    components, [n] being the length of the metric's path. *)
Theorem matchPdu_strict_descendant metrics m oidList :
  NonOverlapping metrics →
  m ∈ metrics →
  StrictDescendant oidList (oidPath m) →
  matchPdu (buildMetricTree metrics) oidList
  = Some (m, drop (length (oidPath m)) oidList).
Proof.
  intros Hdisj Hin [[suffix ->] _].
  rewrite drop_app_length.
  apply list_elem_of_lookup in Hin as [i Hi].
  apply matchPdu_commits.
  - apply oidPath_nonempty.
  - apply owner_build_some.
    + apply list_elem_of_lookup. by exists i.
    + intros m' Hin' Hpath. apply list_elem_of_lookup in Hin' as [j Hj].
      destruct (decide (j = i)) as [->|Hji]; [congruence|].
      destruct (Hdisj j i m' m Hj Hi Hji). by rewrite Hpath.
  - intros p Hp Hpre Hpne. apply owner_build_none.
    intros m' Hin' Hpath. apply list_elem_of_lookup in Hin' as [j Hj].
    destruct (decide (j = i)) as [->|Hji]; [congruence|].
    apply (Hdisj j i m' m Hj Hi Hji). by rewrite Hpath.
Qed.

Lemma matchPdu_strict_descendant_witness :
  matchPdu (buildMetricTree [Example.ifInOctets; Example.ifOutOctets])
    (OidToList "1.3.6.1.2.1.2.2.1.16.7")
  = Some (Example.ifOutOctets, [7]).
Proof.
  apply (matchPdu_strict_descendant
           [Example.ifInOctets; Example.ifOutOctets] Example.ifOutOctets
           (OidToList "1.3.6.1.2.1.2.2.1.16.7")).
  - intros i j mi mj Hi Hj Hij.
    destruct i as [|[|i]]; destruct j as [|[|j]]; try done;
      injection Hi as <-; injection Hj as <-;
      apply (bool_decide_unpack _); vm_compute; exact I.
  - apply list_elem_of_further, list_elem_of_here.
  - split; [by exists [7] | vm_compute; lia].
Defined.

Lemma Collect_all_or_nothing_witness :
  Collect Example.noPort Example.connect Example.flaky Example.flaky
    Example.toInt64 Example.router
  = ([], Ok ()).
Proof.
  eapply (Collect_all_or_nothing Example.noPort Example.connect
            Example.flaky Example.flaky Example.toInt64 Example.router).
  - reflexivity.
  - eapply walkFails_later; [reflexivity|].
    eapply walkFails_here. reflexivity.
Defined.

Lemma Collect_keys_by_name_tail_witness :
  Collect Example.noPort Example.connect Example.nameless Example.nameless
    Example.toInt64 Example.router
  = ([WalkDuration; PdusReturned 4], Panic SliceBoundsOutOfRange).
Proof.
  apply (proj2 (proj2 (Collect_keys_by_name_tail Example.noPort
                         Example.connect Example.nameless Example.nameless
                         Example.toInt64)) Example.router
           [Example.counter ".1.3.6.1.2.1.2.2.1.10.7" 1200;
            Example.counter "" 0;
            Example.counter ".1.3.6.1.2.1.2.2.1.10.7" 1200;
            Example.counter "" 0]).
  - reflexivity.
  - exists (Example.counter "" 0). split; [|reflexivity].
    apply list_elem_of_further, list_elem_of_here.
Defined.

(** * Further properties *)

(** ** Decimal rendering and parsing *)

Lemma all_digits_string_of_uint d :
  Go.all_digits (NilEmpty.string_of_uint d) = true.
Proof. induction d; simpl; auto. Qed.

Lemma digits_value_of_uint_acc d (acc : positive) :
  Go.digits_value (NilEmpty.string_of_uint d) (Z.pos acc)
  = Z.pos (Pos.of_uint_acc d acc).
Proof.
  revert acc. induction d; intros acc; simpl; [done|..];
    rewrite <- IHd; f_equal; lia.
Qed.

Lemma digits_value_of_uint d :
  Go.digits_value (NilEmpty.string_of_uint d) 0 = Z.of_N (Pos.of_uint d).
Proof.
  induction d; simpl; [done | exact IHd | ..];
    apply (digits_value_of_uint_acc d).
Qed.

Lemma digits_value_to_uint p :
  Go.digits_value (NilEmpty.string_of_uint (Pos.to_uint p)) 0 = Z.pos p.
Proof. by rewrite digits_value_of_uint, DecimalPos.Unsigned.of_to. Qed.

(** A string of digits that starts with a digit is parsed without sign. *)
Lemma Atoi_unsigned c s :
  Go.all_digits (String c s) = true →
  Go.Atoi (String c s) = Go.in_range64 (Go.digits_value (String c s) 0).
Proof.
  intros Hd. unfold Go.Atoi. rewrite Hd.
  destruct c as [[] [] [] [] [] [] [] []]; try done.
Qed.

Lemma in_range64_id v :
  - 2 ^ 63 ≤ v < 2 ^ 63 → Go.in_range64 v = (v, None).
Proof.
  intros Hv. unfold Go.in_range64, Go.clamp64.
  replace (Z.max _ _) with v by lia. by rewrite decide_True.
Qed.

Lemma string_of_uint_pos p :
  ∃ c s, NilEmpty.string_of_uint (Pos.to_uint p) = String c s.
Proof.
  pose proof (DecimalPos.Unsigned.to_uint_nonnil p) as Hnil.
  destruct (Pos.to_uint p); [done|..]; simpl; eauto.
Qed.

Lemma fmt_d_pos p :
  Go.fmt_d (Z.pos p) = NilEmpty.string_of_uint (Pos.to_uint p).
Proof.
  unfold Go.fmt_d. simpl. unfold NilZero.string_of_uint.
  pose proof (DecimalPos.Unsigned.to_uint_nonnil p) as Hnil.
  by destruct (Pos.to_uint p).
Qed.

Lemma fmt_d_neg p :
  Go.fmt_d (Z.neg p) = String "-" (NilEmpty.string_of_uint (Pos.to_uint p)).
Proof.
  unfold Go.fmt_d. simpl. unfold NilZero.string_of_uint.
  pose proof (DecimalPos.Unsigned.to_uint_nonnil p) as Hnil.
  by destruct (Pos.to_uint p).
Qed.

(** [strconv.Atoi] reads back what ["%d"] prints, for every [int]. *)
Lemma Atoi_fmt_d v :
  - 2 ^ 63 ≤ v < 2 ^ 63 → Go.Atoi (Go.fmt_d v) = (v, None).
Proof.
  intros Hv. destruct v as [|p|p].
  - reflexivity.
  - rewrite fmt_d_pos. destruct (string_of_uint_pos p) as (c & s & E).
    pose proof (all_digits_string_of_uint (Pos.to_uint p)) as Hd.
    pose proof (digits_value_to_uint p) as Hval.
    rewrite E in *. rewrite Atoi_unsigned, Hval by done.
    by apply in_range64_id.
  - rewrite fmt_d_neg. destruct (string_of_uint_pos p) as (c & s & E).
    pose proof (all_digits_string_of_uint (Pos.to_uint p)) as Hd.
    pose proof (digits_value_to_uint p) as Hval.
    rewrite E in *. unfold Go.Atoi. rewrite Hd, Hval.
    apply in_range64_id. lia.
Qed.

(** ** [OidToList] *)

Lemma Split_dot_app a b :
  Go.Split_dot (a +:+ String "." b) = Go.Split_dot a ++ Go.Split_dot b.
Proof.
  induction a as [|c a IH]; [done|].
  change (String c a +:+ String "." b) with (String c (a +:+ String "." b)).
  simpl. rewrite IH. destruct (Ascii.eqb c "."); [done|].
  pose proof (Split_dot_nonempty a). by destruct (Go.Split_dot a).
Qed.

Lemma Split_dot_dotless s : dotless s = true → Go.Split_dot s = [s].
Proof.
  induction s as [|c s IH]; [done|]. simpl.
  destruct (Ascii.eqb c "."); [done|]. simpl. intros Hs. by rewrite IH.
Qed.

Lemma OidToList_fmap oid :
  OidToList oid = (λ x, (Go.Atoi x).1) <$> Go.Split_dot oid.
Proof.
  unfold OidToList. generalize (Go.Split_dot oid). intros pieces.
  enough (∀ acc : list Z,
    foldl (λ result x, let o := (Go.Atoi x).1 in result ++ [o]) acc pieces
    = acc ++ ((λ x, (Go.Atoi x).1) <$> pieces)) as H by apply (H []).
  induction pieces as [|x pieces IH]; intros acc; simpl.
  - by rewrite app_nil_r.
  - by rewrite IH, <- app_assoc.
Qed.

Lemma dotless_string_of_uint d : dotless (NilEmpty.string_of_uint d) = true.
Proof. induction d; simpl; auto. Qed.

Lemma dotless_fmt_d v : dotless (Go.fmt_d v) = true.
Proof.
  destruct v as [|p|p]; [done|..].
  - rewrite fmt_d_pos. apply dotless_string_of_uint.
  - rewrite fmt_d_neg. simpl. apply dotless_string_of_uint.
Qed.

Lemma OidToList_fmt_d v : is_int v → OidToList (Go.fmt_d v) = [v].
Proof.
  intros Hv. rewrite OidToList_fmap, Split_dot_dotless by apply dotless_fmt_d.
  simpl. by rewrite Atoi_fmt_d.
Qed.


Lemma OidToList_app_dot a b :
  OidToList (a +:+ "." +:+ b) = OidToList a ++ OidToList b.
Proof.
  change ("." +:+ b) with (String "." b).
  by rewrite !OidToList_fmap, Split_dot_app, fmap_app.
Qed.

(** X1: [OidToList] splits at every dot: the components of two strings
    joined by a dot are the components of the first followed by those of
    the second. *)
Theorem OidToList_dot a b :
  OidToList (a +:+ "." +:+ b) = OidToList a ++ OidToList b.
Proof. apply OidToList_app_dot. Qed.


Lemma OidToList_Join_fmt_d components :
  components ≠ [] →
  Forall is_int components →
  OidToList (Go.Join (Go.fmt_d <$> components) ".") = components.
Proof.
  induction components as [|v [|w rest] IH]; intros Hne Hint; [done|..].
  - apply Forall_cons in Hint as [Hv _]. by apply OidToList_fmt_d.
  - apply Forall_cons in Hint as [Hv Hrest].
    change (Go.fmt_d <$> v :: w :: rest)
      with (Go.fmt_d v :: Go.fmt_d w :: (Go.fmt_d <$> rest)).
    rewrite Join_cons_cons, OidToList_app_dot, OidToList_fmt_d by done.
    simpl. f_equal. by apply IH.
Qed.

(** X3: [OidToList] reads back the dotted decimal form of a non-empty
    sequence of integers. *)
Theorem OidToList_Join components :
  components ≠ [] →
  Forall is_int components →
  OidToList (Go.Join (Go.fmt_d <$> components) ".") = components.
Proof. apply OidToList_Join_fmt_d. Qed.

Lemma OidToList_Join_witness :
  OidToList "1.3.6.1.4.1.9" = [1; 3; 6; 1; 4; 1; 9].
Proof.
  apply (OidToList_Join [1; 3; 6; 1; 4; 1; 9]); [done|].
  repeat constructor; unfold is_int; lia.
Defined.

(** X4: the target OID of a lookup parses back to the components of the
    base OID followed by the raw components of the referenced labels. *)
Theorem OidToList_lookupOid labelOids lookup :
  Forall is_int (referencedComponents labelOids lookup) →
  OidToList (lookupOid labelOids lookup)
  = OidToList (Lookup_Oid lookup) ++ referencedComponents labelOids lookup.
Proof.
  intros Hint. rewrite lookupOid_dotJoined. unfold dotJoined.
  destruct (referencedComponents labelOids lookup) as [|v rest] eqn:E.
  - by rewrite app_nil_r.
  - change (Go.fmt_d <$> v :: rest) with (Go.fmt_d v :: (Go.fmt_d <$> rest)).
    rewrite Join_cons_cons, OidToList_app_dot. f_equal.
    by apply (OidToList_Join_fmt_d (v :: rest)).
Qed.

Lemma OidToList_lookupOid_witness :
  OidToList (lookupOid {[ "ifIndex" := [4; 5] ]}
               {| Lookup_Labels := ["ifIndex"]; Lookup_Labelname := "ifDescr";
                  Lookup_Oid := "1.2.3" |})
  = [1; 2; 3; 4; 5].
Proof.
  rewrite (OidToList_lookupOid {[ "ifIndex" := [4; 5] ]}
             {| Lookup_Labels := ["ifIndex"]; Lookup_Labelname := "ifDescr";
                Lookup_Oid := "1.2.3" |}).
  - reflexivity.
  - repeat constructor; unfold is_int; lia.
Defined.

(** ** [splitOid], in full *)

Lemma splitOid_loop_head_fixed oid i count head tail :
  count ≤ Z.of_nat i → (splitOid_loop oid i count head tail).1 = head.
Proof.
  revert i tail. induction oid as [|v oid IH]; intros i tail Hi; [done|].
  simpl. destruct (Z.of_nat i <? count) eqn:E; [lia|]. apply IH. lia.
Qed.

Lemma splitOid_loop_head oid (n : nat) pre tail :
  (length pre ≤ n)%nat →
  (splitOid_loop oid (length pre) (Z.of_nat n)
     (pre ++ replicate (n - length pre) 0) tail).1
  = take n (pre ++ oid ++ replicate n 0).
Proof.
  revert pre tail. induction oid as [|v oid IH]; intros pre tail Hpre.
  - simpl. rewrite take_app_ge, take_replicate by done. f_equal. f_equal. lia.
  - simpl. destruct (Z.of_nat (length pre) <? Z.of_nat n) eqn:E.
    + apply Z.ltb_lt in E.
      replace (n - length pre)%nat with (S (n - S (length pre))) by lia.
      replace (<[length pre := v]> (pre ++ replicate (S _) 0))
        with ((pre ++ [v]) ++ replicate (n - length (pre ++ [v])) 0).
      * replace (S (length pre)) with (length (pre ++ [v]))
          by (rewrite length_app; simpl; lia).
        rewrite IH by (rewrite length_app; simpl; lia).
        by rewrite <- app_assoc.
      * rewrite insert_app_r_alt, Nat.sub_diag by done. simpl.
        rewrite <- app_assoc, length_app. simpl. do 3 f_equal. lia.
    + apply Z.ltb_ge in E. rewrite splitOid_loop_head_fixed by lia.
      replace (n - length pre)%nat with 0%nat by lia. simpl.
      rewrite app_nil_r, take_app_le by lia. rewrite take_ge; [done | lia].
Qed.

Lemma splitOid_full oid count :
  (0 ≤ count →
   splitOid oid count
   = Ok (take (Z.to_nat count) (oid ++ replicate (Z.to_nat count) 0),
         Z.of_nat <$> seq (Z.to_nat count) (length oid - Z.to_nat count))) ∧
  (count < 0 → splitOid oid count = Panic MakeSliceLenOutOfRange).
Proof.
  split; [|apply splitOid_negative].
  intros Hc. destruct (splitOid_returns oid count Hc) as (head & tail & E).
  rewrite E. f_equal. f_equal.
  - revert E. unfold splitOid, make. destruct (count <? 0) eqn:Hneg; [lia|].
    simpl. intros [= E].
    pose proof (splitOid_loop_head oid (Z.to_nat count) [] []) as H.
    simpl in H. rewrite Nat.sub_0_r, Z2Nat.id, E in H by done.
    apply H. lia.
  - exact (splitOid_tail_positions _ _ _ _ E).
Qed.



(** ** The trie, in general *)

Lemma owner_build_Some metrics p m :
  owner (buildMetricTree metrics) p = Some m ↔
  ∃ l1 l2, metrics = l1 ++ m :: l2 ∧ oidPath m = p ∧
           Forall (λ m', oidPath m' ≠ p) l2.
Proof.
  unfold buildMetricTree. revert m.
  induction metrics as [|x metrics IH] using rev_ind; intros m.
  - simpl. rewrite owner_emptyNode. split; [done|].
    intros (l1 & l2 & H & _). by destruct l1.
  - rewrite foldl_snoc. unfold oidPath in *.
    destruct (decide (OidToList (Metric_Oid x) = p)) as [<-|Hne].
    + rewrite owner_attach_same. split.
      * intros [= <-]. exists metrics, []. by split.
      * intros (l1 & l2 & Heq & Hp & Hl2). f_equal.
        destruct l2 as [|y l2 _] using rev_ind.
        -- by apply app_inj_tail in Heq as [_ ->].
        -- rewrite app_comm_cons, app_assoc in Heq.
           apply app_inj_tail in Heq as [_ ->].
           apply Forall_app in Hl2 as [_ Hy].
           apply Forall_inv in Hy. by destruct Hy.
    + rewrite owner_attach_other by done. rewrite IH. split.
      * intros (l1 & l2 & -> & Hp & Hl2). exists l1, (l2 ++ [x]).
        split; [by rewrite <- app_assoc|]. split; [done|].
        apply Forall_app. split; [done|]. by apply Forall_singleton.
      * intros (l1 & l2 & Heq & Hp & Hl2).
        destruct l2 as [|y l2 _] using rev_ind.
        -- apply app_inj_tail in Heq as [_ ->]. congruence.
        -- rewrite app_comm_cons, app_assoc in Heq.
           apply app_inj_tail in Heq as [-> ->].
           apply Forall_app in Hl2 as [Hl2 _]. by exists l1, l2.
Qed.

Lemma owner_build_elem metrics p m :
  owner (buildMetricTree metrics) p = Some m → m ∈ metrics ∧ oidPath m = p.
Proof.
  intros (l1 & l2 & -> & Hp & _)%owner_build_Some. split; [|done].
  apply elem_of_app. right. apply list_elem_of_here.
Qed.

Lemma owner_build_is_Some metrics m :
  m ∈ metrics → is_Some (owner (buildMetricTree metrics) (oidPath m)).
Proof.
  unfold buildMetricTree.
  induction metrics as [|x metrics IH] using rev_ind; intros Hin.
  - by apply elem_of_nil in Hin.
  - rewrite foldl_snoc. unfold oidPath in *.
    destruct (decide (OidToList (Metric_Oid x) = OidToList (Metric_Oid m)))
      as [Heq|Hne].
    + rewrite <- Heq, owner_attach_same. by eexists.
    + rewrite owner_attach_other by congruence.
      apply IH. apply elem_of_app in Hin as [Hin|Hin]; [done|].
      apply list_elem_of_singleton in Hin. congruence.
Qed.

(** What a match is: the walk ends at the first owned node on its way. *)
Lemma matchPdu_Some head oidList m suffix :
  matchPdu head oidList = Some (m, suffix) ↔
  ∃ p, p ≠ [] ∧ oidList = p ++ suffix ∧ owner head p = Some m ∧
       ∀ q, q ≠ [] → q `prefix_of` p → q ≠ p → owner head q = None.
Proof.
  split.
  - revert head. induction oidList as [|o l IH]; intros head; [done|].
    simpl. destruct (children head !! o) as [child|] eqn:Hchild; [|done].
    destruct (metric child) as [m'|] eqn:Hm.
    + intros [= -> ->]. exists [o]. split; [done|]. split; [done|].
      split; [by rewrite owner_cons, Hchild|].
      intros q Hq [k Hk] Hne. destruct q as [|o' [|o'' q]]; try done.
      by simplify_eq/=.
    + intros (p & Hp & -> & Hown & Hmin)%IH. exists (o :: p).
      split; [done|]. split; [done|].
      split; [by rewrite owner_cons, Hchild|].
      intros q Hq Hpre Hne. destruct q as [|o' q]; [done|].
      apply prefix_cons_inv_1 in Hpre as Ho.
      apply prefix_cons_inv_2 in Hpre. subst o'.
      rewrite owner_cons, Hchild. simpl.
      destruct q as [|o' q]; [done|]. apply Hmin; [done | done | congruence].
  - intros (p & Hp & -> & Hown & Hmin). by apply matchPdu_commits.
Qed.

(** Along a path that ends at an owned node there is a first owned node. *)
Lemma first_owner head path :
  path ≠ [] → is_Some (owner head path) →
  ∃ p m, p ≠ [] ∧ p `prefix_of` path ∧ owner head p = Some m ∧
         ∀ q, q ≠ [] → q `prefix_of` p → q ≠ p → owner head q = None.
Proof.
  revert head. induction path as [|o path IH]; intros head Hne Hown; [done|].
  rewrite owner_cons in Hown.
  destruct (children head !! o) as [child|] eqn:Hchild;
    [|by destruct Hown]. simpl in Hown.
  destruct (metric child) as [m|] eqn:Hm.
  - exists [o], m. split; [done|]. split; [by exists path|].
    split; [by rewrite owner_cons, Hchild|].
    intros q Hq [k Hk] Hqne. destruct q as [|o' [|o'' q]]; try done.
    by simplify_eq/=.
  - destruct path as [|o' path].
    { unfold owner in Hown. simpl in Hown. rewrite Hm in Hown.
      by destruct Hown. }
    destruct (IH child) as (p & m & Hp & Hpre & Hpown & Hmin); [done..|].
    exists (o :: p), m. split; [done|]. split; [by apply prefix_cons|].
    split; [by rewrite owner_cons, Hchild|].
    intros q Hq Hqpre Hqne. destruct q as [|o'' q]; [done|].
    apply prefix_cons_inv_1 in Hqpre as Ho.
    apply prefix_cons_inv_2 in Hqpre. subst o''.
    rewrite owner_cons, Hchild. simpl.
    destruct q as [|o'' q]; [done|]. apply Hmin; [done | done | congruence].
Qed.

(** X23: attaching a metric to the trie makes it the owner of its path
    and changes the owner of no other path. *)
Theorem attachMetric_owner path m head path' :
  owner (attachMetric path m head) path'
  = if decide (path' = path) then Some m else owner head path'.
Proof.
  case_decide as Hp.
  - subst path'. apply owner_attach_same.
  - by apply owner_attach_other.
Qed.

Lemma matchPdu_build_inv metrics oidList m suffix :
  matchPdu (buildMetricTree metrics) oidList = Some (m, suffix) →
  m ∈ metrics ∧ oidList = oidPath m ++ suffix ∧
  ∀ m', m' ∈ metrics → oidPath m' `prefix_of` oidPath m →
        oidPath m' = oidPath m.
Proof.
  intros (p & Hp & -> & Hown & Hmin)%matchPdu_Some.
  apply owner_build_elem in Hown as [Hin <-].
  split; [done|]. split; [done|].
  intros m' Hin' Hpre.
  destruct (decide (oidPath m' = oidPath m)) as [|Hne]; [done|].
  destruct (owner_build_is_Some metrics m' Hin') as [x Hx].
  rewrite Hmin in Hx; [done | apply oidPath_nonempty | done | done].
Qed.

(** X6: a match is always a configured metric whose OID path is a prefix
    of the PDU's components, the suffix being what follows the path; and
    no configured metric has a shorter path on the way. *)
Theorem matchPdu_sound metrics oidList m suffix :
  matchPdu (buildMetricTree metrics) oidList = Some (m, suffix) →
  m ∈ metrics ∧ oidList = oidPath m ++ suffix ∧
  ∀ m', m' ∈ metrics → oidPath m' `prefix_of` oidPath m →
        oidPath m' = oidPath m.
Proof. apply matchPdu_build_inv. Qed.

Lemma matchPdu_sound_witness :
  Example.ifOutOctets ∈ [Example.ifInOctets; Example.ifOutOctets] ∧
  OidToList "1.3.6.1.2.1.2.2.1.16.7" = oidPath Example.ifOutOctets ++ [7].
Proof.
  destruct (matchPdu_sound [Example.ifInOctets; Example.ifOutOctets]
              (OidToList "1.3.6.1.2.1.2.2.1.16.7") Example.ifOutOctets [7])
    as (Hin & Hsplit & _); [|done].
  vm_compute. reflexivity.
Defined.

(** X7: a PDU is matched exactly when the OID path of some configured
    metric is a prefix of its components; every other PDU is dropped. *)
Theorem matchPdu_is_Some metrics oidList :
  is_Some (matchPdu (buildMetricTree metrics) oidList) ↔
  ∃ m, m ∈ metrics ∧ oidPath m `prefix_of` oidList.
Proof.
  split.
  - intros [[m suffix] Hmatch]. exists m.
    apply matchPdu_build_inv in Hmatch as (Hin & -> & _).
    split; [done|]. by exists suffix.
  - intros (m & Hin & [rest ->]).
    destruct (first_owner (buildMetricTree metrics) (oidPath m))
      as (p & m' & Hp & [k Hk] & Hown & Hmin).
    { apply oidPath_nonempty. }
    { by apply owner_build_is_Some. }
    exists (m', k ++ rest). apply matchPdu_Some. exists p.
    split; [done|]. split; [|done]. by rewrite Hk, <- app_assoc.
Qed.

(** X8: a metric whose OID path extends the path of another configured
    metric is never matched, whatever the PDU. *)
Theorem matchPdu_shadowed metrics m1 m2 oidList suffix :
  m1 ∈ metrics →
  oidPath m1 `prefix_of` oidPath m2 →
  oidPath m1 ≠ oidPath m2 →
  matchPdu (buildMetricTree metrics) oidList ≠ Some (m2, suffix).
Proof.
  intros Hin Hpre Hne Hmatch.
  apply matchPdu_build_inv in Hmatch as (_ & _ & Hmin).
  by apply Hne, Hmin.
Qed.

Lemma matchPdu_build_last earlier m later suffix :
  Forall (λ m', oidPath m' ≠ oidPath m) later →
  (∀ m', m' ∈ earlier ++ m :: later →
         oidPath m' `prefix_of` oidPath m → oidPath m' = oidPath m) →
  matchPdu (buildMetricTree (earlier ++ m :: later)) (oidPath m ++ suffix)
  = Some (m, suffix).
Proof.
  intros Hlater Hmin. apply matchPdu_commits.
  - apply oidPath_nonempty.
  - apply owner_build_Some. by exists earlier, later.
  - intros p Hp Hpre Hne.
    destruct (owner (buildMetricTree (earlier ++ m :: later)) p)
      as [m'|] eqn:Hown; [|done].
    apply owner_build_elem in Hown as [Hin <-].
    destruct Hne. by apply Hmin.
Qed.

(** X9: when several metrics are configured with the same OID, the last
    of them is the one matched, provided no configured metric has a
    shorter path on the way. *)
Theorem matchPdu_last_wins earlier m later suffix :
  Forall (λ m', oidPath m' ≠ oidPath m) later →
  (∀ m', m' ∈ earlier ++ m :: later →
         oidPath m' `prefix_of` oidPath m → oidPath m' = oidPath m) →
  matchPdu (buildMetricTree (earlier ++ m :: later)) (oidPath m ++ suffix)
  = Some (m, suffix).
Proof. apply matchPdu_build_last. Qed.

Lemma matchPdu_is_Some_witness :
  is_Some (matchPdu (buildMetricTree [Example.ifInOctets; Example.ifOutOctets])
             (OidToList "1.3.6.1.2.1.2.2.1.10.3")).
Proof.
  apply (matchPdu_is_Some [Example.ifInOctets; Example.ifOutOctets]).
  exists Example.ifInOctets. split; [apply list_elem_of_here|].
  by exists [3].
Defined.

Lemma matchPdu_shadowed_witness :
  matchPdu (buildMetricTree [Scenario.ifTable; Example.ifInOctets])
    (OidToList "1.3.6.1.2.1.2.2.1.10.7")
  ≠ Some (Example.ifInOctets, [7]).
Proof.
  apply (matchPdu_shadowed [Scenario.ifTable; Example.ifInOctets]
           Scenario.ifTable Example.ifInOctets).
  - apply list_elem_of_here.
  - by exists [1; 10].
  - vm_compute. discriminate.
Defined.

Lemma matchPdu_last_wins_witness :
  matchPdu (buildMetricTree [Example.ifInOctets; Scenario.ifInOctetsAgain])
    (OidToList "1.3.6.1.2.1.2.2.1.10.7")
  = Some (Scenario.ifInOctetsAgain, [7]).
Proof.
  apply (matchPdu_last_wins [Example.ifInOctets] Scenario.ifInOctetsAgain
           [] [7]).
  - constructor.
  - intros m' Hin _.
    apply elem_of_cons in Hin as [->|Hin]; [done|].
    apply list_elem_of_singleton in Hin as ->. done.
Defined.

(** ** The index decoder, in general *)

Lemma store_each_app {A B} (f : A → B) src done (rest : list B) :
  length src = length rest →
  store_each f src (length done) (done ++ rest) = Ok (done ++ (f <$> src)).
Proof.
  revert done rest. induction src as [|o src IH]; intros done rest Hlen.
  - destruct rest; [|done]. done.
  - destruct rest as [|r rest]; [done|]. simpl in Hlen.
    simpl. unfold store. rewrite decide_True by (rewrite length_app; simpl; lia).
    simpl. rewrite insert_app_r_alt, Nat.sub_diag by done. simpl.
    replace (done ++ f o :: rest) with ((done ++ [f o]) ++ rest)
      by by rewrite <- app_assoc.
    replace (S (length done)) with (length (done ++ [f o]))
      by (rewrite length_app; simpl; lia).
    rewrite IH by lia. by rewrite <- app_assoc.
Qed.

Lemma store_each_full {A B} (f : A → B) src (dst : list B) :
  length src = length dst → store_each f src 0 dst = Ok (f <$> src).
Proof. intros H. by apply (store_each_app f src [] dst). Qed.

Lemma take_pad_length (oid : list Z) (n : nat) :
  length (take n (oid ++ replicate n 0)) = n.
Proof. rewrite length_take, length_app, length_replicate. lia. Qed.

Lemma splitOid_1 oid :
  splitOid oid 1
  = Ok ([default 0 (head oid)], Z.of_nat <$> seq 1 (length oid - 1)).
Proof.
  rewrite (proj1 (splitOid_full oid 1)) by lia. by destruct oid.
Qed.

Lemma decodeIndex_Integer32 st name :
  decodeIndex st {| Index_Labelname := name; Index_Type := "Integer32" |}
  = Ok {| labels :=
            <[name := Go.fmt_d (default 0 (head (indexOids st)))]> (labels st);
          labelOids :=
            <[name := [default 0 (head (indexOids st))]]> (labelOids st);
          indexOids := Z.of_nat <$> seq 1 (length (indexOids st) - 1) |}.
Proof.
  unfold decodeIndex. simpl Index_Type. case_decide; [|done].
  by rewrite splitOid_1.
Qed.

(** X10: a single [Integer32] index is labelled with the decimal form of
    the first component of the suffix, and with "0" when the suffix is
    empty. *)
Theorem Integer32_label suffix name oidToPdu :
  indexesToLabels suffix (oneIndex name "Integer32") oidToPdu
  = Ok {[ name := Go.fmt_d (default 0 (head suffix)) ]}.
Proof.
  unfold indexesToLabels, oneIndex.
  cbn [Metric_Indexes Metric_Lookups for_each].
  by rewrite decodeIndex_Integer32.
Qed.

(** X11: a single [PhysAddress48] index is labelled with the first six
    components of the suffix, zeros filling a short one, each printed by
    ["%02X"] and joined by colons. *)
Theorem PhysAddress48_label_general suffix name oidToPdu :
  indexesToLabels suffix (oneIndex name "PhysAddress48") oidToPdu
  = Ok {[ name :=
            Go.Join (Go.fmt_02X <$> take 6 (suffix ++ replicate 6 0)) ":" ]}.
Proof.
  unfold indexesToLabels, oneIndex. simpl Metric_Indexes.
  simpl Metric_Lookups. unfold for_each at 2. unfold decodeIndex.
  simpl Index_Type.
  repeat (case_decide; [discriminate|]). case_decide; [|done].
  simpl indexOids. rewrite (proj1 (splitOid_full _ 6)) by lia.
  change (Z.to_nat 6) with 6%nat. simpl.
  rewrite store_each_full; [done|]. apply take_pad_length.
Qed.

(** X12: with two [Integer32] indexes and a suffix of at least two
    components, the first label is the first component and the second
    label is "1": the second index is decoded from the position that
    [splitOid] left in the remainder, whatever the second component is. *)
Theorem Integer32_twice x y rest first second oidToPdu :
  indexesToLabels (x :: y :: rest)
    {| Metric_Name := "m"; Metric_Oid := "1.3.6.1";
       Metric_Indexes :=
         [{| Index_Labelname := first; Index_Type := "Integer32" |};
          {| Index_Labelname := second; Index_Type := "Integer32" |}];
       Metric_Lookups := [] |} oidToPdu
  = Ok (<[second := "1"]> {[ first := Go.fmt_d x ]}).
Proof.
  unfold indexesToLabels. cbn [Metric_Indexes Metric_Lookups for_each].
  rewrite decodeIndex_Integer32. cbn [mbind panics_bind].
  by rewrite decodeIndex_Integer32.
Qed.

Lemma for_each_returns {A S} (body : S → A → panics S) (Inv : S → Prop)
    (P : A → Prop) st xs :
  (∀ st x, Inv st → P x → ∃ st', body st x = Ok st' ∧ Inv st') →
  Inv st → Forall P xs →
  ∃ st', for_each body st xs = Ok st' ∧ Inv st'.
Proof.
  intros Hbody. revert st. induction xs as [|x xs IH]; intros st Hst Hxs.
  - by exists st.
  - apply Forall_cons in Hxs as [Hx Hxs]. simpl.
    destruct (Hbody st x Hst Hx) as (st' & -> & Hst'). simpl. by apply IH.
Qed.

Lemma pduValueAsString_Panic_inv pdu r :
  pduValueAsString pdu = Panic r ↔
  PDU_Value pdu = VString "" ∧ PDU_Type pdu = ObjectIdentifier ∧
  r = SliceBoundsOutOfRange.
Proof.
  unfold pduValueAsString. split.
  - destruct (PDU_Value pdu) as [| | |s| |]; try done.
    case_decide; [|done]. destruct s; [|done]. by intros [= <-].
  - intros (-> & Htype & ->). by rewrite decide_True.
Qed.

(** X13: [pduValueAsString] fails in one case only: an empty string
    typed as an object identifier, sliced from its second byte. *)
Theorem pduValueAsString_panics pdu r :
  pduValueAsString pdu = Panic r ↔
  PDU_Value pdu = VString "" ∧ PDU_Type pdu = ObjectIdentifier ∧
  r = SliceBoundsOutOfRange.
Proof. apply pduValueAsString_Panic_inv. Qed.

Lemma decodeIndex_simple_returns st index :
  Index_Type index ∉ ["OctetString"; "InetAddress"; "IpAddress"] →
  ∃ st', decodeIndex st index = Ok st'.
Proof.
  intros Hty. unfold decodeIndex.
  assert (∀ oid, ∃ tail, splitOid oid 1 = Ok ([default 0 (head oid)], tail))
    as H1 by (intros oid; rewrite splitOid_1; eauto).
  destruct (decide (Index_Type index = "Integer32")) as [_|_].
  { destruct (H1 (indexOids st)) as [tail ->]. simpl. eauto. }
  destruct (decide (Index_Type index = "PhysAddress48")) as [_|_].
  { rewrite (proj1 (splitOid_full _ 6)) by lia.
    change (Z.to_nat 6) with 6%nat. simpl.
    rewrite store_each_full; [simpl; eauto|]. apply take_pad_length. }
  destruct (decide (Index_Type index = "OctetString")) as [E|_].
  { destruct Hty. rewrite E. set_solver. }
  destruct (decide (Index_Type index = "InetAddress")) as [E|_].
  { destruct Hty. rewrite E. set_solver. }
  destruct (decide (Index_Type index = "IpAddress")) as [E|_].
  { destruct Hty. rewrite E. set_solver. }
  destruct (decide (Index_Type index = "InetAddressType")) as [_|_]; [|eauto].
  destruct (H1 (indexOids st)) as [tail ->]. simpl. eauto.
Qed.

(** X14: a metric without [OctetString], [InetAddress] and [IpAddress]
    indexes is decoded without a panic on every suffix, provided no
    retrieved PDU is an empty object-identifier string. *)
Theorem indexesToLabels_returns suffix metric oidToPdu :
  Forall (λ index, Index_Type index
                   ∉ ["OctetString"; "InetAddress"; "IpAddress"])
    (Metric_Indexes metric) →
  (∀ oid pdu, oidToPdu !! oid = Some pdu →
     ¬ (PDU_Value pdu = VString "" ∧ PDU_Type pdu = ObjectIdentifier)) →
  ∃ labels, indexesToLabels suffix metric oidToPdu = Ok labels.
Proof.
  intros Hsimple Hpdus. unfold indexesToLabels.
  destruct (for_each_returns decodeIndex (λ _, True)
              (λ index, Index_Type index
                        ∉ ["OctetString"; "InetAddress"; "IpAddress"])
              {| labels := ∅; labelOids := ∅; indexOids := suffix |}
              (Metric_Indexes metric)) as (st & -> & _); [|done|done|].
  { intros st index _ Hty.
    destruct (decodeIndex_simple_returns st index Hty) as [st' ->]. eauto. }
  simpl.
  destruct (for_each_returns (performLookup oidToPdu (labelOids st))
              (λ _, True) (λ _, True) (labels st) (Metric_Lookups metric))
    as (labels & -> & _); [|done|by apply Forall_true|by eexists].
  intros lbls lookup _ _. unfold performLookup.
  destruct (oidToPdu !! lookupOid (labelOids st) lookup) as [pdu|] eqn:E;
    [|eauto].
  destruct (pduValueAsString pdu) as [v|r] eqn:Ev; [simpl; eauto|].
  apply pduValueAsString_Panic_inv in Ev as (Hv & Ht & _).
  destruct (Hpdus _ _ E). done.
Qed.

Lemma indexesToLabels_returns_witness :
  ∃ labels,
    indexesToLabels [7] Example.ifInOctets
      {[ "1.3.6.1.2.1.2.2.1.2.7" :=
           {| PDU_Name := ".1.3.6.1.2.1.2.2.1.2.7"; PDU_Type := 4;
              PDU_Value := VBytes [] |} ]}
    = Ok labels.
Proof.
  apply indexesToLabels_returns.
  - apply Forall_singleton. intros Hin.
    repeat (apply elem_of_cons in Hin as [Hin|Hin]; [discriminate|]).
    by apply elem_of_nil in Hin.
  - intros oid pdu Hget [Hv _].
    apply lookup_singleton_Some in Hget as [_ <-]. done.
Defined.

(** Inversion of a computation in [panics] that returned. *)
Ltac returned H :=
  repeat match type of H with
  | (?m ≫= _) = Ok _ =>
      let E := fresh "E" in
      destruct m as [?|?] eqn:E; simpl in H; [|discriminate H]
  | context [let '(_, _) := ?p in _] => destruct p
  | (if ?b then _ else _) = Ok _ => destruct b
  end.

(** An index writes at most its own label. *)
Lemma decodeIndex_labels st index st' :
  decodeIndex st index = Ok st' →
  ∀ k, is_Some (labels st' !! k) →
       k = Index_Labelname index ∨ is_Some (labels st !! k).
Proof.
  unfold decodeIndex. intros H k.
  returned H; injection H as <-; simpl;
    try (destruct (decide (Index_Labelname index = k)) as [->|Hne];
         [by left | rewrite lookup_insert_ne by done]);
    by right.
Qed.

Lemma performLookup_labels oidToPdu labelOids (lbls : gmap string string)
    lookup (lbls' : gmap string string) :
  performLookup oidToPdu labelOids lbls lookup = Ok lbls' →
  ∀ k, is_Some (lbls' !! k) →
       k = Lookup_Labelname lookup ∨ is_Some (lbls !! k).
Proof.
  unfold performLookup. intros H k.
  destruct (oidToPdu !! lookupOid labelOids lookup) as [pdu|].
  - returned H. injection H as <-.
    destruct (decide (Lookup_Labelname lookup = k)) as [->|Hne];
      [by left | rewrite lookup_insert_ne by done]. by right.
  - injection H as <-. by right.
Qed.

Lemma for_each_keys {A S V} (body : S → A → panics S)
    (keys : S → gmap string V) (name : A → string) st xs st' :
  (∀ st x st', body st x = Ok st' →
     ∀ k, is_Some (keys st' !! k) → k = name x ∨ is_Some (keys st !! k)) →
  for_each body st xs = Ok st' →
  ∀ k, is_Some (keys st' !! k) →
       k ∈ (name <$> xs) ∨ is_Some (keys st !! k).
Proof.
  intros Hbody. revert st. induction xs as [|x xs IH]; intros st H k Hk.
  - injection H as <-. by right.
  - simpl in H. returned H. destruct (IH _ H k Hk) as [Hin|Hsome].
    + left. by apply list_elem_of_further.
    + destruct (Hbody _ _ _ E k Hsome) as [->|Hst].
      * left. apply list_elem_of_here.
      * by right.
Qed.

(** X15: the label names of a sample are label names of the metric's
    indexes and lookups; nothing else is ever written. *)
Theorem indexesToLabels_names suffix metric oidToPdu
    (lbls : gmap string string) k :
  indexesToLabels suffix metric oidToPdu = Ok lbls →
  is_Some (lbls !! k) →
  k ∈ (Index_Labelname <$> Metric_Indexes metric) ∨
  k ∈ (Lookup_Labelname <$> Metric_Lookups metric).
Proof.
  unfold indexesToLabels. intros H Hk. returned H.
  destruct (for_each_keys _ id Lookup_Labelname _ _ _
              (performLookup_labels oidToPdu _) H k Hk) as [Hin|Hsome];
    [by right|].
  destruct (for_each_keys _ labels Index_Labelname _ _ _
              decodeIndex_labels E k Hsome) as [Hin|Hsome'];
    [by left|].
  simpl in Hsome'. rewrite lookup_empty in Hsome'. by destruct Hsome'.
Qed.

Lemma indexesToLabels_names_witness :
  "ifIndex" ∈ (Index_Labelname <$> Metric_Indexes Example.ifInOctets) ∨
  "ifIndex" ∈ (Lookup_Labelname <$> Metric_Lookups Example.ifInOctets).
Proof.
  apply (indexesToLabels_names [7] Example.ifInOctets ∅
           {[ "ifIndex" := "7" ]} "ifIndex").
  - reflexivity.
  - by eexists.
Defined.

(** ** The PDU map, in general *)

Lemma for_each_app {A S} (body : S → A → panics S) st xs ys :
  for_each body st (xs ++ ys)
  = for_each body st xs ≫= λ st', for_each body st' ys.
Proof.
  revert st. induction xs as [|x xs IH]; intros st; [done|].
  simpl. destruct (body st x) as [st'|r]; [simpl; apply IH | done].
Qed.

Lemma indexPdu_keeps oidToPdu pdus oidToPdu' oid :
  for_each indexPdu oidToPdu pdus = Ok oidToPdu' →
  Forall (λ pdu, ∀ ch, PDU_Name pdu ≠ String ch oid) pdus →
  oidToPdu' !! oid = oidToPdu !! oid.
Proof.
  revert oidToPdu. induction pdus as [|p pdus IH]; intros oidToPdu H Hall.
  - by injection H as <-.
  - apply Forall_cons in Hall as [Hp Hall]. simpl in H.
    destruct (PDU_Name p) as [|ch0 oid0] eqn:E.
    { by rewrite indexPdu_empty_name in H. }
    rewrite (indexPdu_String _ _ ch0 oid0) in H by done. simpl in H.
    rewrite (IH _ H Hall). apply lookup_insert_ne. intros ->. by apply (Hp ch0).
Qed.

(** X16: when several PDUs have the same name behind the first byte, the
    map of [Collect] holds the last of them. *)
Theorem indexPdu_last_wins before pdu after ch oid oidToPdu :
  for_each indexPdu ∅ (before ++ pdu :: after) = Ok oidToPdu →
  PDU_Name pdu = String ch oid →
  Forall (λ pdu', ∀ ch', PDU_Name pdu' ≠ String ch' oid) after →
  oidToPdu !! oid = Some pdu.
Proof.
  intros H Hname Hafter. rewrite for_each_app in H.
  destruct (for_each indexPdu ∅ before) as [m0|]; [|done].
  simpl in H. rewrite (indexPdu_String _ _ ch oid) in H by done. simpl in H.
  rewrite (indexPdu_keeps _ _ _ oid H Hafter). apply lookup_insert_eq.
Qed.

Lemma indexPdu_last_wins_witness :
  ({[ "1.3.6.1.2.1.1.3.0" := Example.counter ".1.3.6.1.2.1.1.3.0" 20 ]}
     : gmap string SnmpPDU) !! "1.3.6.1.2.1.1.3.0"
  = Some (Example.counter ".1.3.6.1.2.1.1.3.0" 20).
Proof.
  apply (indexPdu_last_wins [Example.counter ".1.3.6.1.2.1.1.3.0" 10]
           (Example.counter ".1.3.6.1.2.1.1.3.0" 20) [] ".").
  - vm_compute. reflexivity.
  - reflexivity.
  - constructor.
Defined.

Lemma indexPdu_size oidToPdu pdus oidToPdu' :
  for_each indexPdu oidToPdu pdus = Ok oidToPdu' →
  (size oidToPdu' ≤ size oidToPdu + length pdus)%nat.
Proof.
  revert oidToPdu. induction pdus as [|p pdus IH]; intros oidToPdu H.
  - injection H as <-. simpl. lia.
  - simpl in H. destruct (PDU_Name p) as [|ch oid] eqn:E.
    { by rewrite indexPdu_empty_name in H. }
    rewrite (indexPdu_String _ _ ch oid) in H by done. simpl in H.
    apply IH in H. rewrite map_size_insert in H.
    simpl. destruct (oidToPdu !! oid); simpl in H; lia.
Qed.

Section ScrapeFurther.

Context {Conn : Type}.
Variable SplitHostPort : string → Go.result (string * string).
Variable Connect : GoSNMP → Go.result Conn.
Variable WalkAll BulkWalkAll :
  GoSNMP → Conn → string → Go.result (list SnmpPDU) * Conn.
Variable ToBigInt_Int64 : Value → Z.

(** ** Retrieval *)

Lemma walkSubtrees_Err snmp conn walk result msg :
  walkSubtrees WalkAll BulkWalkAll snmp conn walk result = Go.Err msg →
  walkFails WalkAll BulkWalkAll snmp conn walk.
Proof.
  revert conn result. induction walk as [|subtree walk IH];
    intros conn result H; [done|].
  simpl in H.
  destruct (walkOne WalkAll BulkWalkAll snmp conn subtree)
    as [[pdus|err] conn'] eqn:Hone.
  - eapply walkFails_later; [done|]. by eapply IH.
  - by eapply walkFails_here.
Qed.

(** X17: [ScrapeTarget] returns an error exactly when the connection
    cannot be set up or the walk of some root fails; otherwise it returns
    the PDUs. *)
Theorem ScrapeTarget_fails_iff target config :
  (∃ msg, ScrapeTarget SplitHostPort Connect WalkAll BulkWalkAll
            target config = Go.Err msg) ↔
  (∃ msg, connectTarget SplitHostPort Connect target = Go.Err msg) ∨
  (∃ snmp conn,
     connectTarget SplitHostPort Connect target = Go.Val (snmp, conn) ∧
     walkFails WalkAll BulkWalkAll snmp conn (Module_Walk config)).
Proof.
  unfold ScrapeTarget.
  destruct (connectTarget SplitHostPort Connect target)
    as [[snmp conn]|msg0].
  - split.
    + intros [msg H]. right. exists snmp, conn. split; [done|].
      by eapply walkSubtrees_Err.
    + intros [[msg H]|(snmp' & conn' & [= <- <-] & Hfails)]; [done|].
      by apply walkSubtrees_fails.
  - split; [|by exists msg0]. intros _. left. by exists msg0.
Qed.

Lemma connectTarget_Version target snmp conn :
  connectTarget SplitHostPort Connect target = Go.Val (snmp, conn) →
  Version snmp = Version2c.
Proof.
  unfold connectTarget. intros H.
  destruct (SplitHostPort target) as [[host port]|_].
  - destruct (Go.Atoi port) as [p [err|]]; [done|].
    destruct (Connect _); [|done]. by injection H as <- _.
  - destruct (Connect _); [|done]. by injection H as <- _.
Qed.

Lemma walkSubtrees_bulk (WalkAll' : GoSNMP → Conn → string →
                                     Go.result (list SnmpPDU) * Conn)
    snmp conn walk result :
  Version snmp = Version2c →
  walkSubtrees WalkAll BulkWalkAll snmp conn walk result
  = walkSubtrees WalkAll' BulkWalkAll snmp conn walk result.
Proof.
  intros Hv. revert conn result.
  induction walk as [|subtree walk IH]; intros conn result; [done|].
  simpl. unfold walkOne. rewrite Hv. simpl.
  destruct (BulkWalkAll snmp conn subtree) as [[pdus|err] conn']; [|done].
  apply IH.
Qed.

(** X18: [ScrapeTarget] never walks with [WalkAll]: its result is the
    same whatever that operation would return. *)
Theorem ScrapeTarget_never_WalkAll
    (WalkAll' : GoSNMP → Conn → string → Go.result (list SnmpPDU) * Conn)
    target config :
  ScrapeTarget SplitHostPort Connect WalkAll BulkWalkAll target config
  = ScrapeTarget SplitHostPort Connect WalkAll' BulkWalkAll target config.
Proof.
  unfold ScrapeTarget.
  destruct (connectTarget SplitHostPort Connect target)
    as [[snmp conn]|msg] eqn:E; [|done].
  apply walkSubtrees_bulk. by eapply connectTarget_Version.
Qed.

(** X19: a port written in the target is reduced modulo 65536 and then
    used: the decimal form of [p] connects to port [p mod 65536]; a port
    that is not a number ends the scrape with an error. *)
Theorem connectTarget_port target host :
  (∀ p conn,
     SplitHostPort target = Go.Val (host, Go.fmt_d p) →
     is_int p →
     Connect {| Target := host; Port := p mod 65536; Version := Version2c;
                Community := "public"; Timeout_seconds := 60;
                Retries := 3; MaxRepetitions := 25 |} = Go.Val conn →
     ∃ snmp, connectTarget SplitHostPort Connect target = Go.Val (snmp, conn) ∧
             Target snmp = host ∧ Port snmp = p mod 65536) ∧
  (∀ port err,
     SplitHostPort target = Go.Val (host, port) →
     (Go.Atoi port).2 = Some err →
     ∃ msg, connectTarget SplitHostPort Connect target = Go.Err msg).
Proof.
  split.
  - intros p conn Hsplit Hp Hconn. unfold connectTarget.
    rewrite Hsplit, Atoi_fmt_d by done. rewrite Hconn. by eexists.
  - intros port err Hsplit Herr. unfold connectTarget. rewrite Hsplit.
    destruct (Go.Atoi port) as [p e]. simpl in Herr. subst e. by eexists.
Qed.

(** ** [Collect] *)

Lemma pduLoop_unmatched metricTree oidToPdu entries :
  (∀ oid pdu, (oid, pdu) ∈ entries →
     matchPdu metricTree (OidToList oid) = None) →
  pduLoop ToBigInt_Int64 metricTree oidToPdu entries = ([], Ok ()).
Proof.
  induction entries as [|[oid pdu] entries IH]; intros Hnone; [done|].
  simpl. rewrite (Hnone oid pdu) by apply list_elem_of_here.
  apply IH. intros oid' pdu' Hin. apply (Hnone oid' pdu').
  by apply list_elem_of_further.
Qed.

Lemma pduLoop_length metricTree oidToPdu entries :
  (length (pduLoop ToBigInt_Int64 metricTree oidToPdu entries).1
   ≤ length entries)%nat.
Proof.
  induction entries as [|[oid pdu] entries IH]; [done|]. simpl.
  destruct (matchPdu metricTree (OidToList oid)) as [[m suffix]|];
    [|simpl; lia].
  destruct (pduToSample _ _ _ _ _) as [sample|r]; [|simpl; lia].
  destruct (pduLoop _ _ _ _) as [sent outcome]. simpl in *. lia.
Qed.

(** X20: when no PDU of a scrape lies under the OID of a configured
    metric, [Collect] sends the three bookkeeping observations and
    nothing else, and returns. *)
Theorem Collect_unmatched c pdus :
  ScrapeTarget SplitHostPort Connect WalkAll BulkWalkAll
    (target c) (module c) = Go.Val pdus →
  Forall (λ pdu, PDU_Name pdu ≠ "") pdus →
  (∀ pdu ch oid m,
     pdu ∈ pdus → PDU_Name pdu = String ch oid →
     m ∈ Module_Metrics (module c) →
     ¬ oidPath m `prefix_of` OidToList oid) →
  Collect SplitHostPort Connect WalkAll BulkWalkAll ToBigInt_Int64 c
  = ([WalkDuration; PdusReturned (length pdus); ScrapeDuration], Ok ()).
Proof.
  intros Hscrape Hnames Hnone. unfold Collect. rewrite Hscrape.
  destruct (indexPdu_all_returns ∅ pdus Hnames) as [oidToPdu Hmap].
  rewrite Hmap.
  destruct (indexPdu_all_entries _ _ _ Hmap) as (Hentries & _ & _).
  rewrite pduLoop_unmatched; [done|].
  intros oid pdu Hin%elem_of_map_to_list.
  destruct (Hentries oid pdu Hin) as [Hold|[Hpdu [ch Hname]]].
  { by rewrite lookup_empty in Hold. }
  destruct (matchPdu _ _) as [[m suffix]|] eqn:Hmatch; [|done].
  apply matchPdu_build_inv in Hmatch as (Hm & Hsplit & _).
  destruct (Hnone pdu ch oid m Hpdu Hname Hm). by exists suffix.
Qed.

(** X21: [Collect] sends at most one sample for each PDU retrieved,
    beside the three bookkeeping observations. *)
Theorem Collect_at_most_one_per_pdu c pdus :
  ScrapeTarget SplitHostPort Connect WalkAll BulkWalkAll
    (target c) (module c) = Go.Val pdus →
  (length (Collect SplitHostPort Connect WalkAll BulkWalkAll
             ToBigInt_Int64 c).1 ≤ length pdus + 3)%nat.
Proof.
  intros Hscrape. unfold Collect. rewrite Hscrape.
  destruct (for_each indexPdu ∅ pdus) as [oidToPdu|r] eqn:Hmap;
    [|simpl; lia].
  pose proof (indexPdu_size _ _ _ Hmap) as Hsize.
  rewrite map_size_empty in Hsize.
  pose proof (pduLoop_length
                (buildMetricTree (Module_Metrics (module c))) oidToPdu
                (map_to_list oidToPdu)) as Hlen.
  rewrite length_map_to_list in Hlen.
  destruct (pduLoop _ _ _ _) as [sent [[]|r]]; simpl in *;
    rewrite ?length_app; simpl; lia.
Qed.


(** X24: a matched metric whose first index is an [IpAddress] makes
    [Collect] panic in the decoder, after the two walk observations and
    before the scrape duration. *)
Theorem Collect_IpAddress_panics c pdu ch oid m label others :
  ScrapeTarget SplitHostPort Connect WalkAll BulkWalkAll
    (target c) (module c) = Go.Val [pdu] →
  Module_Metrics (module c) = [m] →
  Metric_Indexes m
  = {| Index_Labelname := label; Index_Type := "IpAddress" |} :: others →
  PDU_Name pdu = String ch oid →
  oidPath m `prefix_of` OidToList oid →
  Collect SplitHostPort Connect WalkAll BulkWalkAll ToBigInt_Int64 c
  = ([WalkDuration; PdusReturned 1], Panic IndexOutOfRange).
Proof.
  intros Hscrape Hmetrics Hindexes Hname [suffix Hoid].
  unfold Collect. rewrite Hscrape, Hmetrics. simpl for_each.
  rewrite (indexPdu_String _ _ _ _ Hname). cbn [mbind panics_bind].
  rewrite insert_empty, map_to_list_singleton. simpl pduLoop.
  assert (matchPdu (buildMetricTree [m]) (oidPath m ++ suffix)
          = Some (m, suffix)) as Hmatch.
  { apply (matchPdu_build_last [] m [] suffix); [constructor|].
    intros m' Hin _. by apply list_elem_of_singleton in Hin as ->. }
  rewrite Hoid, Hmatch.
  unfold pduToSample, indexesToLabels. rewrite Hindexes.
  cbn [for_each]. rewrite decodeIndex_IpAddress. reflexivity.
Qed.

Lemma walkSubtrees_concat (answer : string → list SnmpPDU) snmp conn walk
    result :
  (∀ snmp conn subtree,
     ∃ conn', BulkWalkAll snmp conn subtree = (Go.Val (answer subtree), conn')) →
  Version snmp = Version2c →
  walkSubtrees WalkAll BulkWalkAll snmp conn walk result
  = Go.Val (result ++ concat (answer <$> walk)).
Proof.
  intros Hanswer Hv. revert conn result.
  induction walk as [|subtree walk IH]; intros conn result; simpl.
  - by rewrite app_nil_r.
  - unfold walkOne. rewrite Hv. simpl.
    destruct (Hanswer snmp conn subtree) as [conn' ->].
    by rewrite IH, <- app_assoc.
Qed.

(** X25: when every root is answered, whatever the state of the
    connection, a scrape that connects returns the answers to the roots of
    [module.Walk] one after the other, in the order of the list. *)
Theorem ScrapeTarget_concat (answer : string → list SnmpPDU) target config
    snmp conn :
  (∀ snmp conn subtree,
     ∃ conn', BulkWalkAll snmp conn subtree = (Go.Val (answer subtree), conn')) →
  connectTarget SplitHostPort Connect target = Go.Val (snmp, conn) →
  ScrapeTarget SplitHostPort Connect WalkAll BulkWalkAll target config
  = Go.Val (concat (answer <$> Module_Walk config)).
Proof.
  intros Hanswer Hconn. unfold ScrapeTarget. rewrite Hconn.
  rewrite (walkSubtrees_concat answer) by eauto using connectTarget_Version.
  done.
Qed.

End ScrapeFurther.

Lemma ScrapeTarget_fails_iff_witness :
  ∃ msg, ScrapeTarget Example.noPort Example.connect Example.flaky
           Example.flaky "192.0.2.1" Example.interfaces = Go.Err msg.
Proof.
  apply (ScrapeTarget_fails_iff Example.noPort Example.connect Example.flaky
           Example.flaky "192.0.2.1" Example.interfaces).
  right. eexists _, _. split; [reflexivity|].
  eapply walkFails_later; [reflexivity|].
  eapply walkFails_here. reflexivity.
Defined.

Lemma connectTarget_port_witness :
  ∃ snmp,
    connectTarget Scenario.hostPort Example.connect "192.0.2.7:65697"
    = Go.Val (snmp, 0%nat) ∧
    Target snmp = "192.0.2.7" ∧ Port snmp = 161.
Proof.
  apply (proj1 (connectTarget_port Scenario.hostPort Example.connect
                  "192.0.2.7:65697" "192.0.2.7") 65697 0%nat).
  - reflexivity.
  - unfold is_int. lia.
  - reflexivity.
Defined.

Lemma Collect_unmatched_witness :
  Collect Example.noPort Example.connect Scenario.uptimeOnly
    Scenario.uptimeOnly Example.toInt64 Example.router
  = ([WalkDuration; PdusReturned 2; ScrapeDuration], Ok ()).
Proof.
  apply (Collect_unmatched Example.noPort Example.connect
           Scenario.uptimeOnly Scenario.uptimeOnly Example.toInt64
           Example.router
           [Example.counter ".1.3.6.1.2.1.1.3.0" 42;
            Example.counter ".1.3.6.1.2.1.1.3.0" 42]).
  - reflexivity.
  - by repeat constructor.
  - intros pdu ch oid m Hpdu Hname Hm.
    assert (pdu = Example.counter ".1.3.6.1.2.1.1.3.0" 42) as ->.
    { repeat (apply elem_of_cons in Hpdu as [->|Hpdu]; [done|]).
      by apply elem_of_nil in Hpdu. }
    injection Hname as <- <-.
    apply elem_of_cons in Hm as [->|Hm].
    { apply (bool_decide_unpack _). vm_compute. exact I. }
    apply list_elem_of_singleton in Hm as ->.
    apply (bool_decide_unpack _). vm_compute. exact I.
Defined.

Lemma Collect_at_most_one_per_pdu_witness :
  (length (Collect Example.noPort Example.connect Scenario.oneCounter
             Scenario.oneCounter Example.toInt64 Example.router).1
   ≤ 2 + 3)%nat.
Proof.
  apply (Collect_at_most_one_per_pdu Example.noPort Example.connect
           Scenario.oneCounter Scenario.oneCounter Example.toInt64
           Example.router
           [Example.counter ".1.3.6.1.2.1.2.2.1.10.7" 1200;
            Example.counter ".1.3.6.1.2.1.2.2.1.10.7" 1200]).
  reflexivity.
Defined.


Lemma Collect_IpAddress_panics_witness :
  Collect Example.noPort Example.connect Scenario.oneAddress
    Scenario.oneAddress Example.toInt64 Scenario.addresses
  = ([WalkDuration; PdusReturned 1], Panic IndexOutOfRange).
Proof.
  apply (Collect_IpAddress_panics Example.noPort Example.connect
           Scenario.oneAddress Scenario.oneAddress Example.toInt64
           Scenario.addresses
           {| PDU_Name := ".1.3.6.1.2.1.4.20.1.2.10.0.0.1"; PDU_Type := 2;
              PDU_Value := VInt 2 |}
           "." "1.3.6.1.2.1.4.20.1.2.10.0.0.1" Scenario.ipAdEntIfIndex
           "ipAdEntAddr" []).
  - reflexivity.
  - reflexivity.
  - reflexivity.
  - reflexivity.
  - by exists [10; 0; 0; 1].
Defined.

Lemma ScrapeTarget_concat_witness :
  ScrapeTarget Example.noPort Example.connect Scenario.uptimeOnly
    Scenario.uptimeOnly "192.0.2.1" Example.interfaces
  = Go.Val [Example.counter ".1.3.6.1.2.1.1.3.0" 42;
            Example.counter ".1.3.6.1.2.1.1.3.0" 42].
Proof.
  eapply (ScrapeTarget_concat Example.noPort Example.connect
            Scenario.uptimeOnly Scenario.uptimeOnly
            (λ _, [Example.counter ".1.3.6.1.2.1.1.3.0" 42])
            "192.0.2.1" Example.interfaces).
  - intros snmp conn subtree. by eexists.
  - reflexivity.
Defined.

Lemma pduValueAsString_panics_witness :
  pduValueAsString {| PDU_Name := ".1.3.6.1.2.1.1.2.0";
                      PDU_Type := ObjectIdentifier; PDU_Value := VString "" |}
  = Panic SliceBoundsOutOfRange.
Proof.
  apply (pduValueAsString_panics
           {| PDU_Name := ".1.3.6.1.2.1.1.2.0";
              PDU_Type := ObjectIdentifier; PDU_Value := VString "" |}).
  by repeat split.
Defined.
